(** * redux-easy-async: the async action-creator factory and its surroundings

    A shallow embedding of [src/async-action.js] ([decorateActionCreator] and
    [createAsyncAction]) over a small model of JavaScript values, together
    with models of the modules it imports whose text is not part of the
    sources at hand (the constant generator and the lifecycle middleware). *)

From Stdlib Require Import ZArith String Ascii List Lia.
From stdpp Require Import base option list gmap strings pretty.

Open Scope string_scope.
Local Set Warnings "-register-all".

(** ** JavaScript values *)

Module JS.

(** Function values.  The factory never looks inside a function value, it
    only asks [typeof]; a function is therefore represented by where it
    comes from: produced by the library's plain action-creator factory for
    a given type, or supplied by the user (told apart by a tag). *)
Inductive closure (V : Type) : Type :=
| ActionCreatorFor (type : V)
| UserFunction (tag : nat).
Arguments ActionCreatorFor {V} type.
Arguments UserFunction {V} tag.

(** A plain object [VObj] is the finite map of its own enumerable
    properties.  Any other object is a [VInstance]: its own enumerable
    properties, and the properties it has beyond those, inherited along
    its prototype chain or not enumerable (an instance of a class with its
    methods; an array that has been given named properties, the indices
    and names being own and [length] beyond).  [VArr] is an array with
    nothing but its elements. *)
Inductive value : Type :=
| VUndefined
| VNull
| VBool (b : bool)
| VNum (n : Z)
| VStr (s : string)
| VArr (elems : list value)
| VObj (fields : gmap string value)
| VFun (f : closure value)
| VInstance (own beyond : gmap string value).

(** Exceptions: [new Error(message)], the engine's [TypeError], or any
    value thrown by user code. *)
Inductive exn : Type :=
| Error (message : string)
| TypeError
| Thrown (v : value).

(** [typeof v] *)
Definition typeof (v : value) : string :=
  match v with
  | VUndefined => "undefined"
  | VNull => "object"
  | VBool _ => "boolean"
  | VNum _ => "number"
  | VStr _ => "string"
  | VArr _ => "object"
  | VObj _ => "object"
  | VFun _ => "function"
  | VInstance _ _ => "object"
  end.

(** [!!v]: the integer-valued numbers modelled here are falsy only at 0. *)
Definition truthy (v : value) : bool :=
  match v with
  | VUndefined | VNull => false
  | VBool b => b
  | VNum n => negb (Z.eqb n 0)
  | VStr s => negb (String.eqb s "")
  | VArr _ | VObj _ | VFun _ | VInstance _ _ => true
  end.

(** The language's own notion of an object (ECMAScript [Type(v)] is
    Object): plain objects, arrays and functions, and not [null]. *)
Definition is_object (v : value) : bool :=
  match v with
  | VArr _ | VObj _ | VFun _ | VInstance _ _ => true
  | _ => false
  end.

(** A decimal digit. *)
Definition isDigit (c : ascii) : bool :=
  (48 <=? nat_of_ascii c)%nat && (nat_of_ascii c <=? 57)%nat.

(** The position named by an array-index key, if it is one in range. *)
Definition index_of_key (len : nat) (k : string) : option nat :=
  fst <$> list_find (fun i : nat => pretty i = k) (seq 0 len).

Definition chars (s : string) : list value :=
  (fun c => VStr (String c EmptyString)) <$> list_ascii_of_string s.

Definition indexed (xs : list value) (k : string) : value :=
  if String.eqb k "length" then VNum (Z.of_nat (length xs))
  else match index_of_key (length xs) k with
       | Some i => default VUndefined (xs !! i)
       | None => VUndefined
       end.

(** [v.k] and [v[k]]: reading a property throws a [TypeError] on [null]
    and [undefined], and finds nothing on the other primitives; on an
    object an own property hides one from beyond.  A function value is
    taken to have no properties: the file asks a function value for its
    [typeof] only, and the one function whose properties it reads and
    assigns, the creator, keeps them in the world (see [Run]). *)
Definition get (v : value) (k : string) : exn + value :=
  match v with
  | VUndefined | VNull => inl TypeError
  | VObj m => inr (default VUndefined (m !! k))
  | VArr xs => inr (indexed xs k)
  | VStr s => inr (indexed (chars s) k)
  | VInstance own beyond =>
      inr (match own !! k with
           | Some x => x
           | None => default VUndefined (beyond !! k)
           end)
  | VBool _ | VNum _ | VFun _ => inr VUndefined
  end.

(** The properties copied by [...v] inside an object literal: the own
    enumerable ones. *)
Definition spread (v : value) : gmap string value :=
  match v with
  | VObj m => m
  | VInstance own _ => own
  | VArr xs => list_to_map (imap (fun i x => (pretty i, x)) xs)
  | VStr s => list_to_map (imap (fun i x => (pretty i, x)) (chars s))
  | _ => ∅
  end.

End JS.

(** ** Computations of the host language

    Code runs in a world [σ] (whatever user functions and imported modules
    keep between calls) and either returns or throws. *)

Module Run.
Import JS.

Definition M (σ A : Type) : Type := σ -> (exn + A) * σ.

Definition ret {σ A} (a : A) : M σ A := fun w => (inr a, w).

Definition throw {σ A} (e : exn) : M σ A := fun w => (inl e, w).

Definition bind {σ A B} (c : M σ A) (k : A -> M σ B) : M σ B :=
  fun w =>
    match c w with
    | (inr a, w') => k a w'
    | (inl e, w') => (inl e, w')
    end.

(** A property read, which may throw. *)
Definition lift {σ A} (r : exn + A) : M σ A := fun w => (r, w).

(** Function objects are shared and mutable: the properties assigned to
    them live in the world, by address, where any code that runs can read
    and assign them; [user] is the rest of the world. *)
Record heap (σ : Type) : Type := Heap {
  functions : gmap nat (gmap string value);
  user : σ
}.
Arguments Heap {σ} functions user.
Arguments functions {σ} h.
Arguments user {σ} h.

(** A function object: where its properties are, and its code. *)
Record function_object (σ : Type) : Type := FunctionObject {
  address : nat;
  body : list value -> M (heap σ) value
}.
Arguments FunctionObject {σ} address body.
Arguments address {σ} f.
Arguments body {σ} f args.

(** The properties of the function at an address, in a world. *)
Definition at_address {σ} (l : nat) (w : heap σ) : gmap string value :=
  default ∅ (functions w !! l).

(** The properties of a function object, in a world. *)
Definition own {σ} (f : function_object σ) (w : heap σ) : gmap string value :=
  at_address (address f) w.

(** Calling a function object. *)
Definition invoke {σ} (f : function_object σ) (args : list value)
    : M (heap σ) value :=
  body f args.

(** [f.k] on the properties of a function object. *)
Definition prop (self : gmap string value) (k : string) : value :=
  default VUndefined (self !! k).

(** Reading the properties of the function at an address. *)
Definition properties {σ} (l : nat) : M (heap σ) (gmap string value) :=
  fun w => (inr (at_address l w), w).

(** Changing the properties of the function at an address in place. *)
Definition update {σ} (l : nat)
    (change : gmap string value -> gmap string value) : M (heap σ) unit :=
  fun w =>
    (inr tt, Heap (<[l := change (at_address l w)]> (functions w)) (user w)).


(** An address above every address in use. *)
Definition unused (fs : gmap nat (gmap string value)) : nat :=
  foldr (fun l above => Nat.max (Datatypes.S l) above) 0 (elements (dom fs)).

(** A new function object, with no properties yet; its code may name the
    function itself. *)
Definition allocate {σ} (code : nat -> list value -> M (heap σ) value)
    : M (heap σ) (function_object σ) :=
  fun w =>
    let l := unused (functions w) in
    (inr (FunctionObject l (code l)),
     Heap (<[l := ∅]> (functions w)) (user w)).

(** Code that only knows the rest of the world. *)
Definition onUser {σ A} (c : M σ A) : M (heap σ) A :=
  fun w =>
    let (r, u) := c (user w) in (r, Heap (functions w) u).

End Run.

Notation "'let*' x ':=' c 'in' k" := (Run.bind c (fun x => k))
  (at level 10, x name, c at level 100, k at level 200).

(** ** src/async-action.js *)

Module AsyncAction.
Import JS Run.

(** The messages of [ERRORS] in [lib/constants] that this file uses. *)
Record errors : Type := Errors {
  ASYNC_TYPE_NOT_VALID : string;
  ACTION_NOT_OBJECT : string;
  MAKE_REQUEST_NOT_FUNCTION : string
}.

Section Imports.
Context {σ : Type}.

(** What the file imports: [ERRORS] and [REDUX_EASY_ASYNC_NAMESPACE] from
    [lib/constants], [getOrCreateAsyncConstants] from [async-constants]
    and [createAction] from [action]. *)
Variable ERRORS : errors.
Variable REDUX_EASY_ASYNC_NAMESPACE : value.
Variable getOrCreateAsyncConstants : value -> M (heap σ) value.
Variable createAction : value -> value.

(** [decorateActionCreator]: destructure the constants, then [_.assign]
    the eight properties onto the function, in the order of the literal. *)
Definition decorateActionCreator (actionCreator : function_object σ)
    (asyncConstants : value) : M (heap σ) unit :=
  let* START_TYPE := lift (get asyncConstants "START_TYPE") in
  let* SUCCESS_TYPE := lift (get asyncConstants "SUCCESS_TYPE") in
  let* FAIL_TYPE := lift (get asyncConstants "FAIL_TYPE") in
  let* NAME := lift (get asyncConstants "NAME") in
  update (address actionCreator) (fun self =>
    <["actionName" := NAME]>
    (<["fail" := createAction FAIL_TYPE]>
    (<["success" := createAction SUCCESS_TYPE]>
    (<["start" := createAction START_TYPE]>
    (<["NAME" := NAME]>
    (<["FAIL_TYPE" := FAIL_TYPE]>
    (<["SUCCESS_TYPE" := SUCCESS_TYPE]>
    (<["START_TYPE" := START_TYPE]> self)))))))).

(** The closure [actionCreator] of [createAsyncAction], at the address
    [self] of the function it is the code of: it reads the function's
    properties after [fn] has run and the result has been checked. *)
Definition actionCreator (namespace : value)
    (fn : list value -> M (heap σ) value)
    (self : nat) (args : list value) : M (heap σ) value :=
  let* action := fn args in
  if negb (String.eqb (typeof action) "object")
  then throw (Error (ACTION_NOT_OBJECT ERRORS))
  else
    let* makeRequest := lift (get action "makeRequest") in
    if negb (String.eqb (typeof makeRequest) "function")
    then throw (Error (MAKE_REQUEST_NOT_FUNCTION ERRORS))
    else
      let* actionCreator := properties self in
      ret (VObj
         (<["failActionCreator" := prop actionCreator "fail"]>
         (<["successActionCreator" := prop actionCreator "success"]>
         (<["startActionCreator" := prop actionCreator "start"]>
         (<["actionName" := prop actionCreator "actionName"]>
         (<["actionCreatorArgs" := VArr args]>
            (spread action ∪ <["type" := namespace]> ∅))))))).

(** [createAsyncAction(type, fn, options = {})]: the default stands in for
    an [undefined] third argument only, and destructuring [null] throws. *)
Definition createAsyncAction (type : value)
    (fn : list value -> M (heap σ) value)
    (options : value) : M (heap σ) (function_object σ) :=
  let options := match options with VUndefined => VObj ∅ | _ => options end in
  let* namespace := lift (get options "namespace") in
  let namespace :=
    match namespace with
    | VUndefined => REDUX_EASY_ASYNC_NAMESPACE
    | _ => namespace
    end in
  let* asyncConstants := getOrCreateAsyncConstants type in
  if negb (truthy asyncConstants)
  then throw (Error ("createAsyncAction(type, fn, options): "
                       ++ ASYNC_TYPE_NOT_VALID ERRORS))
  else
    let* actionCreator := allocate (actionCreator namespace fn) in
    let* _ := decorateActionCreator actionCreator asyncConstants in
    ret actionCreator.

End Imports.

(** The third argument as documented: left out, or an object. *)
Definition passed (options : option (gmap string value)) : value :=
  match options with
  | None => VUndefined
  | Some o => VObj o
  end.

(** The keys [decorateActionCreator] assigns to the function. *)
Definition decoratedKeys : list string :=
  ["START_TYPE"; "SUCCESS_TYPE"; "FAIL_TYPE"; "NAME";
   "start"; "success"; "fail"; "actionName"].

(** The properties of itself that the closure reads when it is called. *)
Definition readKeys : list string :=
  ["actionName"; "start"; "success"; "fail"].

(** Which property of the function the closure reads into which field of
    the action. *)
Definition fieldsRead : list (string * string) :=
  [("actionName", "actionName"); ("start", "startActionCreator");
   ("success", "successActionCreator"); ("fail", "failActionCreator")].

(** The keys the closure assigns after spreading the descriptor. *)
Definition assignedKeys : list string :=
  ["actionCreatorArgs"; "actionName"; "startActionCreator";
   "successActionCreator"; "failActionCreator"].

End AsyncAction.


(** ** The constant generator *)

Module AsyncConstants.
Import JS Run.

(** Objects live in a store and are named by their position in it, so that
    two results can be compared for identity and not only for content. *)
Record world : Type := World {
  objects : list (gmap string value);
  cache : gmap string nat
}.

Definition empty : world := World [] ∅.

(** Modelled from the spec: the derivation of a constant set from a base
    type in [async-constants.js], which is not among the sources.  The set
    is [{ START_TYPE, SUCCESS_TYPE, FAIL_TYPE, NAME }] with the three types
    [<TYPE>_START], [<TYPE>_SUCCESS] and [<TYPE>_FAIL]; the display name is
    derived from the base type by [displayName]. *)
Definition deriveConstants (displayName : string -> string) (type : string)
    : gmap string value :=
  <["NAME" := VStr (displayName type)]>
  (<["FAIL_TYPE" := VStr (type ++ "_FAIL")]>
  (<["SUCCESS_TYPE" := VStr (type ++ "_SUCCESS")]>
  (<["START_TYPE" := VStr (type ++ "_START")]> ∅))).

(** Modelled from the spec: the constant generator of [async-constants.js],
    which is not among the sources.  It memoizes by base type: a base type
    seen before yields the object made for it then, a new one yields a new
    object, which is remembered.  The result is the object's position. *)
Definition createAsyncConstants (displayName : string -> string)
    (type : string) (w : world) : nat * world :=
  match cache w !! type with
  | Some l => (l, w)
  | None =>
      let l := length (objects w) in
      (l, World (objects w ++ [deriveConstants displayName type])
                (<[type := l]> (cache w)))
  end.

(** A run of generator calls, one per base type of the list. *)
Definition generate (displayName : string -> string)
    (types : list string) (w : world) : world :=
  foldl (fun w type => snd (createAsyncConstants displayName type w)) w types.

(** An object that carries the four keys of a constant set. *)
Definition isConstants (m : gmap string value) : bool :=
  forallb (fun k => bool_decide (is_Some (m !! k)))
          ["START_TYPE"; "SUCCESS_TYPE"; "FAIL_TYPE"; "NAME"].

(** Modelled from the spec: [getOrCreateAsyncConstants] of
    [async-constants.js], which is not among the sources.  A string is a
    base type and goes through the generator; a constants object stands
    for itself; from anything else no constant set can be derived and the
    result is [undefined]. *)
Definition getOrCreateAsyncConstants (displayName : string -> string)
    (type : value) : M world value :=
  fun w =>
    match type with
    | VStr s =>
        let (l, w') := createAsyncConstants displayName s w in
        (inr (VObj (default ∅ (objects w' !! l))), w')
    | VObj m => (inr (if isConstants m then VObj m else VUndefined), w)
    | _ => (inr VUndefined, w)
    end.

(** The cache only names objects of the store, each the constant set of
    the base type it is filed under. *)
Definition consistent (displayName : string -> string) (w : world) : Prop :=
  forall type l, cache w !! type = Some l ->
    objects w !! l = Some (deriveConstants displayName type).

(** One world extends another when every entry of the cache and every
    object of the store is still there, unchanged. *)
Definition extends (w w' : world) : Prop :=
  (forall type l, cache w !! type = Some l -> cache w' !! type = Some l) /\
  (forall l o, objects w !! l = Some o -> objects w' !! l = Some o).

End AsyncConstants.

(** ** The lifecycle middleware *)

Module Action.
Import JS.

(** An action object [{ type, payload, meta }]. *)
Record t : Type := Make {
  type : value;
  payload : value;
  meta : gmap string value
}.

End Action.

Module Middleware.
Import JS.

(** Modelled from the spec: the plain action-creator factory of
    [action.js], which is not among the sources: it wraps a type into a
    function from a payload to an action of that type. *)
Definition createAction (type : value) (payload : value) : Action.t :=
  Action.Make type payload ∅.

(** Modelled from the spec: whether the middleware intercepts an action,
    which it does when the action carries the reserved namespace as its
    type (the middleware, [middleware.js], is not among the sources). *)
Definition intercepts (namespace : string) (action : value) : bool :=
  match get action "type" with
  | inr (VStr s) => String.eqb s namespace
  | _ => false
  end.

(** How a request promise settles. *)
Inductive outcome : Type :=
| Resolved (resp : value)
| Rejected (resp : value).

Section Lifecycle.
(** The state of the store and its reducer. *)
Context {S : Type}.
Variable reducer : S -> Action.t -> S.

(** Modelled from the spec: an intercepted action as the middleware of
    [middleware.js] (not among the sources) reads it: the configuration
    documented for [createAsyncAction] with what the factory adds to it.
    The request function itself is run by the environment; the settlement
    of the promise it returns arrives as the event [Settle].  The two
    parse functions of a settlement are user code and may throw. *)
Record request : Type := Request {
  actionName : value;
  meta : gmap string value;
  shouldMakeRequest : option (S -> bool);
  parseStart : option value;
  parseSuccess : option (value -> exn + value);
  parseFail : option (value -> exn + value);
  startActionCreator : value -> Action.t;
  successActionCreator : value -> Action.t;
  failActionCreator : value -> Action.t
}.

Inductive incoming : Type :=
| Async (r : request)
| Plain (a : Action.t).

Inductive event : Type :=
| Dispatch (a : incoming)
| Settle (asyncID : nat) (o : outcome)
| Tick (dt : nat).

(** Modelled from the spec: what the middleware keeps: the store, the actions it has dispatched
    itself (oldest first), the next request identifier, the time, the
    requests in flight with their start times, and the exceptions that
    left one of its handlers. *)
Record state : Type := State {
  store : S;
  dispatched : list Action.t;
  nextID : nat;
  clock : Z;
  inflight : gmap nat (request * Z);
  uncaught : list exn
}.

Definition initial (s : S) : state := State s [] 0 0%Z ∅ [].

(** The predicate is optional; without one the request is made. *)
Definition proceeds (r : request) (s : S) : bool :=
  match shouldMakeRequest r with
  | Some p => p s
  | None => true
  end.

(** The parse functions are optional; by default a response is not
    modified. *)
Definition parse (f : option (value -> exn + value)) (resp : value)
    : exn + value :=
  match f with
  | Some g => g resp
  | None => inr resp
  end.

(** Modelled from the spec: the meta every lifecycle action has (action
    name, stage, start time and request identifier), over the request's
    own. *)
Definition startMeta (r : request) (asyncType : string) (asyncID : nat)
    (requestStartTime : Z) : gmap string value :=
  <["asyncID" := VNum (Z.of_nat asyncID)]>
  (<["requestStartTime" := VNum requestStartTime]>
  (<["asyncType" := VStr asyncType]>
  (<["actionName" := actionName r]> (meta r)))).

(** Success and fail actions also have the duration and the raw
    response. *)
Definition settledMeta (r : request) (asyncType : string) (asyncID : nat)
    (requestStartTime now : Z) (resp : value) : gmap string value :=
  <["resp" := resp]>
  (<["requestDuration" := VNum (now - requestStartTime)]>
     (startMeta r asyncType asyncID requestStartTime)).

Definition withMeta (m : gmap string value) (a : Action.t) : Action.t :=
  Action.Make (Action.type a) (Action.payload a) (m ∪ Action.meta a).

Definition startAction (r : request) (asyncID : nat) (t0 : Z) : Action.t :=
  withMeta (startMeta r "start" asyncID t0)
           (startActionCreator r (default VNull (parseStart r))).

Definition successAction (r : request) (asyncID : nat) (t0 now : Z)
    (resp payload : value) : Action.t :=
  withMeta (settledMeta r "success" asyncID t0 now resp)
           (successActionCreator r payload).

Definition failAction (r : request) (asyncID : nat) (t0 now : Z)
    (resp payload : value) : Action.t :=
  withMeta (settledMeta r "fail" asyncID t0 now resp)
           (failActionCreator r payload).

(** Modelled from the spec: the handlers attached to the request promise,
    one for either settlement: the response or the rejection value is
    parsed and becomes the payload of the success or the fail action.  The
    rejection itself is not thrown; only an exception of the parse
    function leaves the handler, and then no action is made. *)
Definition onSettled (r : request) (asyncID : nat) (t0 now : Z)
    (o : outcome) : exn + Action.t :=
  match o with
  | Resolved resp =>
      match parse (parseSuccess r) resp with
      | inr payload => inr (successAction r asyncID t0 now resp payload)
      | inl e => inl e
      end
  | Rejected resp =>
      match parse (parseFail r) resp with
      | inr payload => inr (failAction r asyncID t0 now resp payload)
      | inl e => inl e
      end
  end.

(** [dispatch(a)] of a lifecycle action: it reaches the reducer. *)
Definition emit (a : Action.t) (m : state) : state :=
  State (reducer (store m) a) (dispatched m ++ [a])
        (nextID m) (clock m) (inflight m) (uncaught m).

(** Modelled from the spec: the lifecycle middleware of [middleware.js],
    which is not among the sources.  An action that does not carry the
    namespace goes on to the reducer.  An intercepted one is checked
    against the predicate on the current state and skipped when that says
    no; otherwise the request gets an identifier and a start time, the
    start action is dispatched and the request is in flight.  When its
    promise settles, the success or the fail action is dispatched. *)
Definition step (m : state) (e : event) : state :=
  match e with
  | Dispatch (Plain a) =>
      State (reducer (store m) a) (dispatched m)
            (nextID m) (clock m) (inflight m) (uncaught m)
  | Dispatch (Async r) =>
      if proceeds r (store m) then
        let asyncID := nextID m in
        let requestStartTime := clock m in
        let m1 := emit (startAction r asyncID requestStartTime) m in
        State (store m1) (dispatched m1) (Datatypes.S asyncID) (clock m1)
              (<[asyncID := (r, requestStartTime)]> (inflight m1))
              (uncaught m1)
      else m
  | Settle asyncID o =>
      match inflight m !! asyncID with
      | None => m
      | Some (r, requestStartTime) =>
          let m1 := State (store m) (dispatched m) (nextID m) (clock m)
                          (delete asyncID (inflight m)) (uncaught m) in
          match onSettled r asyncID requestStartTime (clock m) o with
          | inr a => emit a m1
          | inl e => State (store m1) (dispatched m1) (nextID m1) (clock m1)
                           (inflight m1) (uncaught m1 ++ [e])
          end
      end
  | Tick dt =>
      State (store m) (dispatched m) (nextID m) (clock m + Z.of_nat dt)%Z
            (inflight m) (uncaught m)
  end.

Definition run (m : state) (es : list event) : state := foldl step m es.

(** An action stamped with the identifier of request [asyncID]. *)
Definition ofRequest (asyncID : nat) (a : Action.t) : Prop :=
  Action.meta a !! "asyncID" = Some (VNum (Z.of_nat asyncID)).

(** An event other than the settlement of request [asyncID]. *)
Definition notSettling (asyncID : nat) (e : event) : Prop :=
  match e with
  | Settle j _ => j <> asyncID
  | _ => True
  end.

(** Identifiers in use are below the next one to be handed out. *)
Definition wellFormed (m : state) : Prop :=
  (forall j rt, inflight m !! j = Some rt -> j < nextID m) /\
  (forall a, a ∈ dispatched m ->
     exists j, j < nextID m /\ ofRequest j a).

End Lifecycle.
End Middleware.

(** ** A sample configuration

    Concrete imports, used to run the factory on examples. *)

Module Sample.
Import JS Run.

Definition ERRORS : AsyncAction.errors :=
  AsyncAction.Errors "async type is not valid" "action must be an object"
                     "makeRequest must be a function".

Definition REDUX_EASY_ASYNC_NAMESPACE : value := VStr "REDUX_EASY_ASYNC_NAMESPACE".

Definition displayName (type : string) : string := type.

Definition createAction (type : value) : value := VFun (ActionCreatorFor type).

(** The constant generator keeps its cache in the user part of the world. *)
Definition generator (type : value) : M (heap AsyncConstants.world) value :=
  onUser (AsyncConstants.getOrCreateAsyncConstants displayName type).

Definition createAsyncAction :=
  AsyncAction.createAsyncAction ERRORS REDUX_EASY_ASYNC_NAMESPACE
    generator createAction.

(** A world without functions or constants. *)
Definition initial : heap AsyncConstants.world := Heap ∅ AsyncConstants.empty.

(** [() => ({ makeRequest: f })] for a user function [f]. *)
Definition minimal : list value -> M (heap AsyncConstants.world) value :=
  fun _ => ret (VObj (<["makeRequest" := VFun (UserFunction 0)]> ∅)).

(** [() => null] *)
Definition returnsNull : list value -> M (heap AsyncConstants.world) value :=
  fun _ => ret VNull.

(** [() => ({ makeRequest: f, actionName: 'mine' })] *)
Definition namesItself : list value -> M (heap AsyncConstants.world) value :=
  fun _ => ret (VObj (<["actionName" := VStr "mine"]>
                     (<["makeRequest" := VFun (UserFunction 0)]> ∅))).

(** [() => ({ type: 'MINE', makeRequest: f })] *)
Definition typesItself : list value -> M (heap AsyncConstants.world) value :=
  fun _ => ret (VObj (<["makeRequest" := VFun (UserFunction 0)]>
                     (<["type" := VStr "MINE"]> ∅))).

(** [() => [f]] *)
Definition returnsArray : list value -> M (heap AsyncConstants.world) value :=
  fun _ => ret (VArr [VFun (UserFunction 0)]).

(** [() => new Request()] for a class whose method is [makeRequest]. *)
Definition returnsInstance : list value -> M (heap AsyncConstants.world) value :=
  fun _ => ret (VInstance ∅ (<["makeRequest" := VFun (UserFunction 0)]> ∅)).


(** A function without properties, to be decorated. *)
Definition bare : function_object AsyncConstants.world :=
  FunctionObject 0 (fun _ => ret VUndefined).

(** A store that counts the actions it has reduced, and a request that is
    made only while the store has seen none. *)
Definition reducer (count : nat) (a : Action.t) : nat := Datatypes.S count.

Definition getPosts : @Middleware.request nat :=
  Middleware.Request (VStr "GET_POSTS") ∅
    (Some (fun count => Nat.eqb count 0))
    None
    (Some (fun resp => inr (VArr [resp])))
    (Some (fun resp => inr (VObj (<["error" := resp]> ∅))))
    (Middleware.createAction (VStr "GET_POSTS_START"))
    (Middleware.createAction (VStr "GET_POSTS_SUCCESS"))
    (Middleware.createAction (VStr "GET_POSTS_FAIL")).

(** The same request with a [parseFail] that throws. *)
Definition getPostsThrowing : @Middleware.request nat :=
  Middleware.Request (VStr "GET_POSTS") ∅ None None None
    (Some (fun resp => inl (Thrown resp)))
    (Middleware.createAction (VStr "GET_POSTS_START"))
    (Middleware.createAction (VStr "GET_POSTS_SUCCESS"))
    (Middleware.createAction (VStr "GET_POSTS_FAIL")).

End Sample.

(** * Properties *)

(** ** Named properties of arrays and strings *)

Module JSFacts.
Import JS.

Lemma isDigit_pretty_N_char (x : N) : isDigit (pretty_N_char x) = true.
Proof. unfold pretty_N_char. repeat case_match; reflexivity. Qed.

(** Printing a number only puts digits in front. *)
Lemma pretty_N_go_ne_name (x : N) (s : string) (c : ascii) (k : string) :
  isDigit c = false -> s <> String c k -> pretty_N_go x s <> String c k.
Proof.
  intros Hc. revert s.
  induction (N.lt_wf_0 x) as [x _ IH]; intros s Hs.
  assert (x = 0 \/ 0 < x)%N as [-> | Hx] by lia.
  - by rewrite pretty_N_go_0.
  - rewrite pretty_N_go_step by done. apply IH.
    + by apply N.div_lt.
    + intros [= Hd _]. rewrite <- Hd, isDigit_pretty_N_char in Hc. discriminate.
Qed.

Lemma pretty_nat_ne_name (i : nat) (c : ascii) (k : string) :
  isDigit c = false -> pretty i <> String c k.
Proof.
  intros Hc. unfold pretty, pretty_nat, pretty, pretty_N.
  destruct (decide (N.of_nat i = 0%N)).
  - intros [= <- _]. discriminate Hc.
  - by apply pretty_N_go_ne_name.
Qed.

(** A key that does not start with a digit names no position. *)
Lemma index_of_key_name (len : nat) (c : ascii) (k : string) :
  isDigit c = false -> index_of_key len (String c k) = None.
Proof.
  intros Hc. unfold index_of_key. apply fmap_None, list_find_None.
  apply Forall_forall. intros i _. by apply pretty_nat_ne_name.
Qed.

(** An array with nothing but its elements has no [makeRequest]. *)
Lemma array_makeRequest (xs : list value) :
  get (VArr xs) "makeRequest" = inr VUndefined.
Proof.
  simpl. unfold indexed. simpl.
  by rewrite (index_of_key_name (length xs) "m" "akeRequest").
Qed.

(** Reading a property throws on [null] and [undefined] and on nothing
    else. *)
Lemma get_throws (v : value) (k : string) :
  (exists e, get v k = inl e) <-> v = VNull \/ v = VUndefined.
Proof.
  split.
  - intros [e He]. destruct v; simpl in He; try discriminate; auto.
  - intros [-> | ->]; by exists TypeError.
Qed.

Lemma get_returns (v : value) (k : string) :
  v <> VNull -> v <> VUndefined -> exists x, get v k = inr x.
Proof.
  intros Hn Hu. destruct (get v k) as [e | x] eqn:Hk; [| eauto].
  destruct (proj1 (get_throws v k) (ex_intro _ e Hk)); contradiction.
Qed.

(** A truthy value can be destructured. *)
Lemma get_truthy (v : value) (k : string) :
  truthy v = true -> exists x, get v k = inr x.
Proof.
  intros Hv. apply get_returns; intros ->; discriminate.
Qed.

Lemma typeof_function (v : value) :
  typeof v = "function" <-> exists g, v = VFun g.
Proof.
  split; [| by intros [g ->]].
  destruct v; simpl; intros H; try discriminate; eauto.
Qed.

End JSFacts.

(** ** The async action-creator factory *)

Module AsyncActionFacts.
Import JS Run AsyncAction JSFacts.

Lemma not_decorated (k : string) :
  k ∉ decoratedKeys ->
  k <> "START_TYPE" /\ k <> "SUCCESS_TYPE" /\ k <> "FAIL_TYPE" /\ k <> "NAME" /\
  k <> "start" /\ k <> "success" /\ k <> "fail" /\ k <> "actionName".
Proof.
  unfold decoratedKeys. rewrite !not_elem_of_cons. tauto.
Qed.

Lemma type_not_assigned : "type" ∉ assignedKeys.
Proof.
  unfold assignedKeys. rewrite !not_elem_of_cons.
  repeat split; try discriminate. apply not_elem_of_nil.
Qed.

(** What the built action holds, key by key. *)
Lemma built_assigned (base : gmap string value) (a b c d e : value) :
  let r := <["failActionCreator" := e]> (<["successActionCreator" := d]>
           (<["startActionCreator" := c]> (<["actionName" := b]>
           (<["actionCreatorArgs" := a]> base)))) in
  r !! "actionCreatorArgs" = Some a /\ r !! "actionName" = Some b /\
  r !! "startActionCreator" = Some c /\
  r !! "successActionCreator" = Some d /\
  r !! "failActionCreator" = Some e.
Proof. simpl. repeat split; by simplify_map_eq. Qed.

Lemma built_other (base : gmap string value) (a b c d e : value) (k : string) :
  k ∉ assignedKeys ->
  (<["failActionCreator" := e]> (<["successActionCreator" := d]>
  (<["startActionCreator" := c]> (<["actionName" := b]>
  (<["actionCreatorArgs" := a]> base))))) !! k = base !! k.
Proof.
  unfold assignedKeys. intros Hk.
  rewrite !lookup_insert_ne; [done | | | | |]; intros <-; apply Hk; set_unfold; tauto.
Qed.

(** What the eight assignments leave of the other properties. *)
Lemma decorated_other (base : gmap string value) (a b c d e g h i : value)
    (k : string) :
  k ∉ decoratedKeys ->
  (<["actionName" := a]> (<["fail" := b]> (<["success" := c]>
  (<["start" := d]> (<["NAME" := e]> (<["FAIL_TYPE" := g]>
  (<["SUCCESS_TYPE" := h]> (<["START_TYPE" := i]> base)))))))) !! k = base !! k.
Proof.
  intros Hk. apply not_decorated in Hk.
  rewrite !lookup_insert_ne; [done | | | | | | | |]; intros <-; tauto.
Qed.

Lemma at_address_insert {σ} (l : nat) (p : gmap string value)
    (fs : gmap nat (gmap string value)) (u : σ) :
  at_address l (Heap (<[l := p]> fs) u) = p.
Proof. unfold at_address. simpl. by rewrite lookup_insert_eq. Qed.

Lemma at_address_insert_ne {σ} (l l' : nat) (p : gmap string value)
    (fs : gmap nat (gmap string value)) (u : σ) :
  l <> l' -> at_address l' (Heap (<[l := p]> fs) u) = at_address l' (Heap fs u).
Proof. intros H. unfold at_address. simpl. by rewrite lookup_insert_ne. Qed.

Lemma unused_above (fs : gmap nat (gmap string value)) (l : nat) :
  l ∈ dom fs -> l < unused fs.
Proof.
  unfold unused. rewrite <- elem_of_elements.
  induction (elements (dom fs)) as [| x xs IH]; simpl.
  - by intros H%elem_of_nil.
  - intros [-> | H]%elem_of_cons; [lia |]. apply IH in H. lia.
Qed.

Lemma unused_fresh (fs : gmap nat (gmap string value)) :
  fs !! unused fs = None.
Proof.
  apply not_elem_of_dom. intros H%unused_above. lia.
Qed.

Section Decorate.
Context {σ : Type}.
Variable createAction : value -> value.

Local Abbreviation decorateActionCreator :=
  (@decorateActionCreator σ createAction).

Implicit Types (f : function_object σ) (w : heap σ).

(** On constants that can be destructured the decoration assigns the
    eight properties over those the function has. *)
Lemma decorateActionCreator_returns f c w :
  c <> VNull -> c <> VUndefined ->
  exists START SUCCESS FAIL NAME,
    get c "START_TYPE" = inr START /\ get c "SUCCESS_TYPE" = inr SUCCESS /\
    get c "FAIL_TYPE" = inr FAIL /\ get c "NAME" = inr NAME /\
    decorateActionCreator f c w =
      (inr tt,
       Heap (<[address f :=
                 <["actionName" := NAME]>
                 (<["fail" := createAction FAIL]>
                 (<["success" := createAction SUCCESS]>
                 (<["start" := createAction START]>
                 (<["NAME" := NAME]>
                 (<["FAIL_TYPE" := FAIL]>
                 (<["SUCCESS_TYPE" := SUCCESS]>
                 (<["START_TYPE" := START]> (own f w))))))))]>
               (functions w))
            (user w)).
Proof.
  intros Hn Hu.
  destruct (get_returns c "START_TYPE" Hn Hu) as [START HS].
  destruct (get_returns c "SUCCESS_TYPE" Hn Hu) as [SUCCESS HU].
  destruct (get_returns c "FAIL_TYPE" Hn Hu) as [FAIL HF].
  destruct (get_returns c "NAME" Hn Hu) as [NAME HN].
  exists START, SUCCESS, FAIL, NAME. repeat split; try assumption.
  unfold AsyncAction.decorateActionCreator, bind, lift, update.
  rewrite HS, HU, HF, HN. reflexivity.
Qed.

End Decorate.

Section Facts.
Context {σ : Type}.
Variable ERRORS : errors.
Variable REDUX_EASY_ASYNC_NAMESPACE : value.
Variable getOrCreateAsyncConstants : value -> M (heap σ) value.
Variable createAction : value -> value.

Local Abbreviation createAsyncAction :=
  (createAsyncAction ERRORS REDUX_EASY_ASYNC_NAMESPACE
     getOrCreateAsyncConstants createAction).

Implicit Types (fn : list value -> M (heap σ) value) (w : heap σ).

(** The namespace the creator tags its actions with. *)
Local Abbreviation namespaceOf options :=
  (match default ∅ options !! "namespace" with
   | None | Some VUndefined => REDUX_EASY_ASYNC_NAMESPACE
   | Some v => v
   end).

(** The properties of a creator fresh from the factory. *)
Local Abbreviation decorated START SUCCESS FAIL NAME :=
  (<["actionName" := NAME]>
  (<["fail" := createAction FAIL]>
  (<["success" := createAction SUCCESS]>
  (<["start" := createAction START]>
  (<["NAME" := NAME]>
  (<["FAIL_TYPE" := FAIL]>
  (<["SUCCESS_TYPE" := SUCCESS]>
  (<["START_TYPE" := START]> (∅ : gmap string value))))))))).

(** The destructuring of the third argument. *)
Lemma options_passed (options : option (gmap string value)) :
  get (match passed options with VUndefined => VObj ∅ | _ => passed options end)
      "namespace"
  = inr (default VUndefined (default ∅ options !! "namespace")).
Proof. by destruct options. Qed.

Lemma namespace_passed (options : option (gmap string value)) :
  match default VUndefined (default ∅ options !! "namespace") with
  | VUndefined => REDUX_EASY_ASYNC_NAMESPACE
  | _ => default VUndefined (default ∅ options !! "namespace")
  end = namespaceOf options.
Proof. by destruct (default ∅ options !! "namespace") as [[] |]. Qed.

(** For a type with a constant set and a third argument that can be
    destructured, the factory returns a new function, the closure, at an
    address that was free, decorated with the constants and the three
    plain action creators; the rest of the world is as the constant
    generator left it. *)
Lemma createAsyncAction_made type fn options namespace w c w' :
  get (match options with VUndefined => VObj ∅ | _ => options end) "namespace"
    = inr namespace ->
  getOrCreateAsyncConstants type w = (inr c, w') ->
  truthy c = true ->
  exists START SUCCESS FAIL NAME,
    get c "START_TYPE" = inr START /\ get c "SUCCESS_TYPE" = inr SUCCESS /\
    get c "FAIL_TYPE" = inr FAIL /\ get c "NAME" = inr NAME /\
    createAsyncAction type fn options w =
      (inr (FunctionObject (unused (functions w'))
              (actionCreator ERRORS
                 (match namespace with
                  | VUndefined => REDUX_EASY_ASYNC_NAMESPACE
                  | _ => namespace
                  end) fn (unused (functions w')))),
       Heap (<[unused (functions w') := decorated START SUCCESS FAIL NAME]>
               (functions w'))
            (user w')).
Proof.
  intros Hopt Hgen Hc.
  assert (Hn : c <> VNull) by (intros ->; discriminate).
  assert (Hu : c <> VUndefined) by (intros ->; discriminate).
  set (l := unused (functions w')).
  set (code := actionCreator ERRORS _ fn l).
  destruct (decorateActionCreator_returns createAction
              (FunctionObject l code) c
              (Heap (<[l := ∅]> (functions w')) (user w')) Hn Hu)
    as (START & SUCCESS & FAIL & NAME & HS & HU & HF & HN & Hdec).
  exists START, SUCCESS, FAIL, NAME. repeat split; try assumption.
  unfold AsyncAction.createAsyncAction, bind, lift, ret, allocate.
  rewrite Hopt, Hgen, Hc. cbn [negb]. fold l. fold code.
  rewrite Hdec. unfold own. cbn [address functions user].
  rewrite at_address_insert, insert_insert_eq. reflexivity.
Qed.

Lemma createAsyncAction_returns type fn options w c w' :
  getOrCreateAsyncConstants type w = (inr c, w') ->
  truthy c = true ->
  exists START SUCCESS FAIL NAME,
    get c "START_TYPE" = inr START /\ get c "SUCCESS_TYPE" = inr SUCCESS /\
    get c "FAIL_TYPE" = inr FAIL /\ get c "NAME" = inr NAME /\
    createAsyncAction type fn (passed options) w =
      (inr (FunctionObject (unused (functions w'))
              (actionCreator ERRORS (namespaceOf options) fn
                 (unused (functions w')))),
       Heap (<[unused (functions w') := decorated START SUCCESS FAIL NAME]>
               (functions w'))
            (user w')).
Proof.
  intros Hgen Hc.
  destruct (createAsyncAction_made type fn (passed options) _ w c w'
              (options_passed options) Hgen Hc)
    as (START & SUCCESS & FAIL & NAME & HS & HU & HF & HN & Hmk).
  exists START, SUCCESS, FAIL, NAME. repeat split; try assumption.
  rewrite Hmk, namespace_passed. reflexivity.
Qed.

(** The closure on a descriptor: an object with a [makeRequest] function
    is merged over the namespace tag and under the five fields, four of
    them read off the function as it is when [fn] has returned. *)
Lemma actionCreator_returns namespace fn self args w v makeRequest w' :
  fn args w = (inr v, w') ->
  typeof v = "object" ->
  get v "makeRequest" = inr makeRequest ->
  typeof makeRequest = "function" ->
  actionCreator ERRORS namespace fn self args w =
    (inr (VObj
       (<["failActionCreator" := prop (at_address self w') "fail"]>
       (<["successActionCreator" := prop (at_address self w') "success"]>
       (<["startActionCreator" := prop (at_address self w') "start"]>
       (<["actionName" := prop (at_address self w') "actionName"]>
       (<["actionCreatorArgs" := VArr args]>
          (spread v ∪ <["type" := namespace]> ∅))))))), w').
Proof.
  intros Hfn Hv Hget Hmr.
  unfold actionCreator, bind, lift, ret, throw, properties.
  rewrite Hfn, Hv, Hget, Hmr. reflexivity.
Qed.

(** Without a constant set the factory stops at its guard. *)
Lemma createAsyncAction_throws type fn options w c w' :
  getOrCreateAsyncConstants type w = (inr c, w') ->
  truthy c = false ->
  createAsyncAction type fn (passed options) w =
    (inl (Error ("createAsyncAction(type, fn, options): "
                   ++ ASYNC_TYPE_NOT_VALID ERRORS)), w').
Proof.
  intros Hgen Hc. unfold AsyncAction.createAsyncAction, bind, lift, throw.
  rewrite options_passed, Hgen, Hc. reflexivity.
Qed.

(** C6.  For every type from which the constant generator derives no
    constant set (its result is falsy), [createAsyncAction] itself throws
    the error whose message carries [ERRORS.ASYNC_TYPE_NOT_VALID]; no
    creator is returned. *)
Theorem createAsyncAction_invalid_type type fn options w c w' :
  getOrCreateAsyncConstants type w = (inr c, w') ->
  truthy c = false ->
  createAsyncAction type fn (passed options) w =
    (inl (Error ("createAsyncAction(type, fn, options): "
                   ++ ASYNC_TYPE_NOT_VALID ERRORS)), w') /\
  forall creator w'',
    createAsyncAction type fn (passed options) w <> (inr creator, w'').
Proof.
  intros Hgen Hc.
  rewrite (createAsyncAction_throws type fn options w c w' Hgen Hc).
  split; [reflexivity | discriminate].
Qed.


(** C8, amended.  For a type with a constant set and a function [fn]
    whose result is an object with a [makeRequest] function and without
    a [type] key, the object the creator returns has the namespace as
    its [type]: [options.namespace] when the options give one, otherwise
    [REDUX_EASY_ASYNC_NAMESPACE]; a middleware for that namespace
    intercepts it. *)
Theorem createAsyncAction_namespace type fn options w c w' args w1 v makeRequest w2 :
  getOrCreateAsyncConstants type w = (inr c, w') ->
  truthy c = true ->
  fn args w1 = (inr v, w2) ->
  typeof v = "object" ->
  get v "makeRequest" = inr makeRequest ->
  typeof makeRequest = "function" ->
  spread v !! "type" = None ->
  exists creator w'' r namespace,
    createAsyncAction type fn (passed options) w = (inr creator, w'') /\
    invoke creator args w1 = (inr (VObj r), w2) /\
    r !! "type" = Some namespace /\
    (forall o x, options = Some o -> o !! "namespace" = Some x ->
       x <> VUndefined -> namespace = x) /\
    (options = None -> namespace = REDUX_EASY_ASYNC_NAMESPACE) /\
    (forall o, options = Some o ->
       o !! "namespace" = None \/ o !! "namespace" = Some VUndefined ->
       namespace = REDUX_EASY_ASYNC_NAMESPACE) /\
    (forall s, namespace = VStr s -> Middleware.intercepts s (VObj r) = true).
Proof.
  intros Hgen Hc Hfn Hv Hget Hmr Hty.
  destruct (createAsyncAction_returns type fn options w c w' Hgen Hc)
    as (START & SUCCESS & FAIL & NAME & _ & _ & _ & _ & Hmk).
  eexists _, _, _, (namespaceOf options).
  split; [exact Hmk |].
  split; [unfold invoke; cbn [body]; eapply actionCreator_returns; eassumption |].
  assert (Hr : (spread v ∪ <["type" := namespaceOf options]> ∅) !! "type"
               = Some (namespaceOf options)).
  { rewrite lookup_union_r by assumption. apply lookup_insert_eq. }
  split.
  { rewrite built_other by apply type_not_assigned. exact Hr. }
  split.
  { intros o x -> Ho Hx. simpl. rewrite Ho. by destruct x. }
  split.
  { intros ->. simpl. by rewrite lookup_empty. }
  split.
  { intros o -> [Ho | Ho]; simpl; by rewrite Ho. }
  intros s Hs. unfold Middleware.intercepts. cbn [get].
  rewrite built_other by apply type_not_assigned.
  rewrite Hr, Hs. simpl. apply String.eqb_refl.
Qed.

(** C9.  Whatever object with a [makeRequest] function the user's [fn]
    returns, also one that has keys of these names, the built action has
    [actionCreatorArgs], [actionName], [startActionCreator],
    [successActionCreator] and [failActionCreator] equal to the values
    the library assigns: the arguments, and the creator's [actionName]
    (from the factory, the constant set's [NAME]), [start], [success] and
    [fail]; a [type] key of the user's object replaces the namespace
    tag. *)
Theorem createAsyncAction_assigned_last type fn options w c w' args w1 v makeRequest w2 :
  getOrCreateAsyncConstants type w = (inr c, w') ->
  truthy c = true ->
  fn args w1 = (inr v, w2) ->
  typeof v = "object" ->
  get v "makeRequest" = inr makeRequest ->
  typeof makeRequest = "function" ->
  exists creator w'' r,
    createAsyncAction type fn (passed options) w = (inr creator, w'') /\
    invoke creator args w1 = (inr (VObj r), w2) /\
    r !! "actionCreatorArgs" = Some (VArr args) /\
    r !! "actionName" = Some (prop (own creator w2) "actionName") /\
    get c "NAME" = inr (prop (own creator w'') "actionName") /\
    r !! "startActionCreator" = Some (prop (own creator w2) "start") /\
    r !! "successActionCreator" = Some (prop (own creator w2) "success") /\
    r !! "failActionCreator" = Some (prop (own creator w2) "fail") /\
    (forall t, spread v !! "type" = Some t -> r !! "type" = Some t).
Proof.
  intros Hgen Hc Hfn Hv Hget Hmr.
  destruct (createAsyncAction_returns type fn options w c w' Hgen Hc)
    as (START & SUCCESS & FAIL & NAME & _ & _ & _ & HN & Hmk).
  eexists _, _, _.
  split; [exact Hmk |].
  split; [unfold invoke; cbn [body]; eapply actionCreator_returns; eassumption |].
  unfold own. cbn [address]. rewrite at_address_insert.
  set (l := unused (functions w')).
  pose proof (built_assigned (spread v ∪ <["type" := namespaceOf options]> ∅)
                (VArr args) (prop (at_address l w2) "actionName")
                (prop (at_address l w2) "start")
                (prop (at_address l w2) "success")
                (prop (at_address l w2) "fail")) as Hb.
  cbn zeta in Hb. destruct Hb as (Hb1 & Hb2 & Hb3 & Hb4 & Hb5).
  split; [assumption |]. split; [assumption |].
  split; [rewrite HN; unfold prop; by simplify_map_eq |].
  do 3 (split; [assumption |]).
  intros t Ht. rewrite built_other by apply type_not_assigned.
  by apply lookup_union_Some_l.
Qed.

(** C10.  [createAsyncAction] validates only the type when it is called:
    for a type without a constant set it throws whatever [fn] is and
    leaves the world as the constant generator left it, so [fn] has not
    run; for a type with one it returns a creator whatever [fn] is, the
    world being as the constant generator left it but for the new
    function; and each invocation of the creator runs [fn] and validates
    what it returned that time. *)
Theorem createAsyncAction_validates_type_only type fn options w c w' :
  getOrCreateAsyncConstants type w = (inr c, w') ->
  (truthy c = false ->
     forall fn',
       createAsyncAction type fn' (passed options) w =
         (inl (Error ("createAsyncAction(type, fn, options): "
                        ++ ASYNC_TYPE_NOT_VALID ERRORS)), w')) /\
  (truthy c = true ->
     exists creator w'',
       createAsyncAction type fn (passed options) w = (inr creator, w'') /\
       user w'' = user w' /\
       functions w' !! address creator = None /\
       (forall l, l <> address creator ->
          functions w'' !! l = functions w' !! l) /\
       (forall fn', exists creator',
          createAsyncAction type fn' (passed options) w = (inr creator', w'') /\
          address creator' = address creator) /\
       forall args w1 w2,
         (forall e, fn args w1 = (inl e, w2) ->
            invoke creator args w1 = (inl e, w2)) /\
         (forall action, fn args w1 = (inr action, w2) ->
            typeof action <> "object" ->
            invoke creator args w1 =
              (inl (Error (ACTION_NOT_OBJECT ERRORS)), w2)) /\
         (forall action makeRequest, fn args w1 = (inr action, w2) ->
            typeof action = "object" ->
            get action "makeRequest" = inr makeRequest ->
            typeof makeRequest <> "function" ->
            invoke creator args w1 =
              (inl (Error (MAKE_REQUEST_NOT_FUNCTION ERRORS)), w2))).
Proof.
  intros Hgen. split.
  - intros Hc fn'. by eapply createAsyncAction_throws.
  - intros Hc.
    destruct (createAsyncAction_returns type fn options w c w' Hgen Hc)
      as (START & SUCCESS & FAIL & NAME & HS & HU & HF & HN & Hmk).
    eexists _, _. split; [exact Hmk |]. cbn [user functions address].
    split; [reflexivity |].
    split; [apply unused_fresh |].
    split; [intros l Hl; by rewrite lookup_insert_ne |].
    split.
    { intros fn'.
      destruct (createAsyncAction_returns type fn' options w c w' Hgen Hc)
        as (START' & SUCCESS' & FAIL' & NAME' & HS' & HU' & HF' & HN' & Hmk').
      assert (START' = START) as -> by congruence.
      assert (SUCCESS' = SUCCESS) as -> by congruence.
      assert (FAIL' = FAIL) as -> by congruence.
      assert (NAME' = NAME) as -> by congruence.
      eexists. split; [exact Hmk' | reflexivity]. }
    intros args w1 w2. unfold invoke, actionCreator, bind, lift, throw.
    cbn [body].
    repeat split.
    + intros e ->. reflexivity.
    + intros action -> Hty.
      apply String.eqb_neq in Hty. by rewrite Hty.
    + intros action makeRequest -> Hty Hget Hmr.
      apply String.eqb_neq in Hmr.
      rewrite Hty. cbn [String.eqb Ascii.eqb Bool.eqb negb].
      rewrite Hget, Hmr. reflexivity.
Qed.

End Facts.
End AsyncActionFacts.

(** ** The factory on the sample configuration *)

Module AsyncActionExamples.
Import JS Run AsyncAction AsyncActionFacts.

(** The world after the constants of [GET_POSTS] have been made, and the
    world after the factory has made a creator for them around [fn]. *)
Local Abbreviation made :=
  (snd (Sample.generator (VStr "GET_POSTS") Sample.initial)).
Local Abbreviation createdFor fn :=
  (snd (Sample.createAsyncAction (VStr "GET_POSTS") fn VUndefined
          Sample.initial)).
Local Abbreviation constants :=
  (VObj (AsyncConstants.deriveConstants Sample.displayName "GET_POSTS")).
Local Abbreviation f := (VFun (UserFunction 0)).
Local Abbreviation created :=
  (Heap (<[0 := <["actionName" := VStr "GET_POSTS"]>
               (<["fail" := Sample.createAction (VStr "GET_POSTS_FAIL")]>
               (<["success" := Sample.createAction (VStr "GET_POSTS_SUCCESS")]>
               (<["start" := Sample.createAction (VStr "GET_POSTS_START")]>
               (<["NAME" := VStr "GET_POSTS"]>
               (<["FAIL_TYPE" := VStr "GET_POSTS_FAIL"]>
               (<["SUCCESS_TYPE" := VStr "GET_POSTS_SUCCESS"]>
               (<["START_TYPE" := VStr "GET_POSTS_START"]> ∅)))))))]> ∅)
        (user made)).
Local Abbreviation creatorOf fn :=
  (FunctionObject 0
     (actionCreator Sample.ERRORS Sample.REDUX_EASY_ASYNC_NAMESPACE fn 0)).

(** A closed equation with a small result, settled by running it. *)
Ltac by_running := vm_compute; reflexivity.

(** The factory on [GET_POSTS] in the sample configuration. *)
Lemma sample_created fn :
  Sample.createAsyncAction (VStr "GET_POSTS") fn (passed None) Sample.initial =
    (inr (creatorOf fn), created).
Proof.
  destruct (createAsyncAction_returns Sample.ERRORS
              Sample.REDUX_EASY_ASYNC_NAMESPACE Sample.generator
              Sample.createAction (VStr "GET_POSTS") fn None
              Sample.initial constants made eq_refl eq_refl)
    as (START & SUCCESS & FAIL & NAME & HS & HU & HF & HN & Hmk).
  injection HS as <-. injection HU as <-. injection HF as <-.
  injection HN as <-. exact Hmk.
Qed.

Lemma createAsyncAction_invalid_type_witness :
  Sample.createAsyncAction (VNum 3) Sample.minimal (passed None) Sample.initial =
    (inl (Error "createAsyncAction(type, fn, options): async type is not valid"),
     Sample.initial).
Proof.
  apply (createAsyncAction_invalid_type Sample.ERRORS
           Sample.REDUX_EASY_ASYNC_NAMESPACE Sample.generator
           Sample.createAction (VNum 3) Sample.minimal None
           Sample.initial VUndefined Sample.initial eq_refl eq_refl).
Defined.



Lemma createAsyncAction_namespace_witness :
  exists creator w'' r,
    Sample.createAsyncAction (VStr "GET_POSTS") Sample.minimal
      (passed (Some (<["namespace" := VStr "OTHER"]> ∅))) Sample.initial =
      (inr creator, w'') /\
    invoke creator [] created = (inr (VObj r), created) /\
    r !! "type" = Some (VStr "OTHER") /\
    Middleware.intercepts "OTHER" (VObj r) = true.
Proof.
  destruct (createAsyncAction_namespace Sample.ERRORS
              Sample.REDUX_EASY_ASYNC_NAMESPACE Sample.generator
              Sample.createAction (VStr "GET_POSTS") Sample.minimal
              (Some (<["namespace" := VStr "OTHER"]> ∅))
              Sample.initial constants made [] created
              (VObj (<["makeRequest" := f]> ∅)) f created
              eq_refl eq_refl eq_refl eq_refl eq_refl eq_refl eq_refl)
    as (creator & w'' & r & namespace & Hmk & Hinv & Hty & Hgiven & _ & _ & Hmw).
  assert (Hns : namespace = VStr "OTHER").
  { apply (Hgiven _ _ eq_refl eq_refl). discriminate. }
  subst namespace.
  exists creator, w'', r. repeat split; try assumption. by apply Hmw.
Defined.

(** C8, as stated, fails: the user's object may carry a [type] of its own,
    which then is the type of the action; the middleware of the namespace
    does not intercept it. *)
Lemma user_type_replaces_namespace :
  exists creator m r,
    Sample.createAsyncAction (VStr "GET_POSTS") Sample.typesItself
      (passed None) Sample.initial = (inr creator, created) /\
    Sample.typesItself [] created = (inr (VObj m), created) /\
    m !! "makeRequest" = Some f /\
    invoke creator [] created = (inr (VObj r), created) /\
    r !! "type" = Some (VStr "MINE") /\
    r !! "type" <> Some Sample.REDUX_EASY_ASYNC_NAMESPACE /\
    Middleware.intercepts "REDUX_EASY_ASYNC_NAMESPACE" (VObj r) = false.
Proof.
  eexists _, _, _.
  split; [apply sample_created |]. split; [reflexivity |].
  split; [by_running |].
  split.
  { unfold invoke. cbn [body].
    eapply actionCreator_returns; [reflexivity | reflexivity | by_running
                                  | reflexivity]. }
  split; [by_running |].
  split; [| by_running].
  vm_compute. discriminate.
Qed.

Lemma createAsyncAction_assigned_last_witness :
  exists creator w'' r,
    Sample.createAsyncAction (VStr "GET_POSTS") Sample.namesItself
      (passed None) Sample.initial = (inr creator, w'') /\
    invoke creator [VBool true] created = (inr (VObj r), created) /\
    r !! "actionName" = Some (prop (own creator created) "actionName") /\
    r !! "actionCreatorArgs" = Some (VArr [VBool true]).
Proof.
  destruct (createAsyncAction_assigned_last Sample.ERRORS
              Sample.REDUX_EASY_ASYNC_NAMESPACE Sample.generator
              Sample.createAction (VStr "GET_POSTS") Sample.namesItself None
              Sample.initial constants made [VBool true] created
              (VObj (<["actionName" := VStr "mine"]>
                       (<["makeRequest" := f]> ∅)))
              f created
              eq_refl eq_refl eq_refl eq_refl eq_refl eq_refl)
    as (creator & w'' & r & Hmk & Hinv & Hargs & Hname & _).
  exists creator, w'', r. repeat split; assumption.
Defined.

Lemma createAsyncAction_validates_type_only_witness :
  (forall fn',
     Sample.createAsyncAction VNull fn' (passed None) Sample.initial =
       (inl (Error "createAsyncAction(type, fn, options): async type is not valid"),
        Sample.initial)) /\
  exists creator w'',
    Sample.createAsyncAction (VStr "GET_POSTS") Sample.returnsNull
      (passed None) Sample.initial = (inr creator, w'') /\
    forall fn', exists creator',
      Sample.createAsyncAction (VStr "GET_POSTS") fn' (passed None)
        Sample.initial = (inr creator', w'') /\
      address creator' = address creator.
Proof.
  split.
  - apply (createAsyncAction_validates_type_only Sample.ERRORS
             Sample.REDUX_EASY_ASYNC_NAMESPACE Sample.generator
             Sample.createAction VNull Sample.minimal None
             Sample.initial VUndefined Sample.initial eq_refl).
    reflexivity.
  - destruct (proj2 (createAsyncAction_validates_type_only Sample.ERRORS
             Sample.REDUX_EASY_ASYNC_NAMESPACE Sample.generator
             Sample.createAction (VStr "GET_POSTS") Sample.returnsNull None
             Sample.initial constants made eq_refl) eq_refl)
      as (creator & w'' & Hmk & _ & _ & _ & Hany & _).
    exists creator, w''. split; assumption.
Defined.

(** C5 at [fn = () => null]: [null] is not an object, and yet the creator
    does not throw the [ACTION_NOT_OBJECT] error (nor the
    [MAKE_REQUEST_NOT_FUNCTION] one) but a [TypeError]. *)
Lemma null_descriptor_throws_TypeError :
  exists creator,
    Sample.createAsyncAction (VStr "GET_POSTS") Sample.returnsNull
      (passed None) Sample.initial = (inr creator, created) /\
    Sample.returnsNull [] created = (inr VNull, created) /\
    is_object VNull = false /\
    invoke creator [] created = (inl TypeError, created) /\
    TypeError <> Error (ACTION_NOT_OBJECT Sample.ERRORS) /\
    TypeError <> Error (MAKE_REQUEST_NOT_FUNCTION Sample.ERRORS).
Proof.
  eexists. split; [apply sample_created |]. split; [reflexivity |].
  split; [reflexivity |]. split; [reflexivity | split; discriminate].
Qed.

End AsyncActionExamples.

(** ** The constant generator *)

Module AsyncConstantsFacts.
Import JS AsyncConstants.

Section Generator.
Variable displayName : string -> string.

Local Abbreviation create := (createAsyncConstants displayName).
Local Abbreviation derive := (deriveConstants displayName).

Lemma extends_refl w : extends w w.
Proof. by split. Qed.

Lemma extends_trans w1 w2 w3 : extends w1 w2 -> extends w2 w3 -> extends w1 w3.
Proof. intros [Hc1 Ho1] [Hc2 Ho2]. split; eauto. Qed.

Lemma createAsyncConstants_extends type w : extends w (snd (create type w)).
Proof.
  unfold createAsyncConstants.
  destruct (cache w !! type) as [l |] eqn:Hl; simpl; [apply extends_refl |].
  split; simpl.
  - intros t l Ht. rewrite lookup_insert_ne; [done | congruence].
  - intros l o Hlo. by apply lookup_app_l_Some.
Qed.

Lemma createAsyncConstants_consistent type w :
  consistent displayName w -> consistent displayName (snd (create type w)).
Proof.
  unfold createAsyncConstants, consistent. intros Hw.
  destruct (cache w !! type) as [l |] eqn:Hl; simpl; [exact Hw |].
  intros t l. destruct (decide (type = t)) as [<- | Hne].
  - rewrite lookup_insert_eq. intros [= <-].
    by rewrite lookup_app_r, Nat.sub_diag.
  - rewrite lookup_insert_ne by done. intros Ht.
    apply lookup_app_l_Some. by apply Hw.
Qed.

(** After a call the base type is filed under the position returned. *)
Lemma createAsyncConstants_cached type w :
  cache (snd (create type w)) !! type = Some (fst (create type w)).
Proof.
  unfold createAsyncConstants.
  destruct (cache w !! type) as [l |] eqn:Hl; simpl; [done |].
  apply lookup_insert_eq.
Qed.

(** A base type that is filed yields its position and changes nothing. *)
Lemma createAsyncConstants_hit type w l :
  cache w !! type = Some l -> create type w = (l, w).
Proof. unfold createAsyncConstants. by intros ->. Qed.

Lemma generate_extends types w : extends w (generate displayName types w).
Proof.
  revert w. induction types as [| type types IH]; intros w; simpl.
  - apply extends_refl.
  - eapply extends_trans; [apply createAsyncConstants_extends | apply IH].
Qed.

Lemma generate_consistent types w :
  consistent displayName w -> consistent displayName (generate displayName types w).
Proof.
  revert w. induction types as [| type types IH]; intros w Hw; simpl.
  - exact Hw.
  - apply IH. by apply createAsyncConstants_consistent.
Qed.

Lemma empty_consistent : consistent displayName empty.
Proof. intros type l. simpl. by rewrite lookup_empty. Qed.

(** C7.  In any world the generator has produced, a call for a base type
    and, after any further calls, a second call for the same base type
    return the same object: the same position, the second call changes
    nothing, and the object there is the constant set
    [{ START_TYPE, SUCCESS_TYPE, FAIL_TYPE, NAME }] of the base type at
    the first call and still at the second. *)
Theorem createAsyncConstants_memoized before between type :
  let w := generate displayName before empty in
  let first := create type w in
  let w2 := generate displayName between (snd first) in
  let second := create type w2 in
  fst second = fst first /\
  snd second = w2 /\
  objects (snd first) !! fst first = Some (derive type) /\
  objects (snd second) !! fst second = Some (derive type) /\
  derive type !! "START_TYPE" = Some (VStr (type ++ "_START")) /\
  derive type !! "SUCCESS_TYPE" = Some (VStr (type ++ "_SUCCESS")) /\
  derive type !! "FAIL_TYPE" = Some (VStr (type ++ "_FAIL")) /\
  derive type !! "NAME" = Some (VStr (displayName type)).
Proof.
  intros w first w2 second.
  assert (Hw : consistent displayName w)
    by apply generate_consistent, empty_consistent.
  assert (H1 : consistent displayName (snd first))
    by by apply createAsyncConstants_consistent.
  assert (Hfiled : cache w2 !! type = Some (fst first)).
  { apply (generate_extends between (snd first)).
    apply createAsyncConstants_cached. }
  assert (Hsecond : second = (fst first, w2))
    by by apply createAsyncConstants_hit.
  assert (Hobj : objects (snd first) !! fst first = Some (derive type)).
  { apply H1, createAsyncConstants_cached. }
  rewrite Hsecond. simpl.
  split; [done |]. split; [done |]. split; [done |].
  split; [by apply (generate_extends between (snd first)) |].
  unfold deriveConstants. repeat split; by simplify_map_eq.
Qed.

End Generator.
End AsyncConstantsFacts.

(** ** The lifecycle middleware *)

Module MiddlewareFacts.
Import JS Middleware.
Local Open Scope list_scope.

Section Lifecycle.
Context {S : Type}.
Variable reducer : S -> Action.t -> S.

Local Abbreviation step := (Middleware.step reducer).
Local Abbreviation run := (Middleware.run reducer).

Implicit Types (m : @state S) (r : @request S) (e : @event S) (a : Action.t).

Lemma run_app m es1 es2 : run m (es1 ++ es2) = run (run m es1) es2.
Proof. apply foldl_app. Qed.

Lemma run_cons m e es : run m (e :: es) = run (step m e) es.
Proof. reflexivity. Qed.

(** What an action is stamped with. *)
Lemma startMeta_stamps r asyncType j t0 :
  startMeta r asyncType j t0 !! "asyncID" = Some (VNum (Z.of_nat j)) /\
  startMeta r asyncType j t0 !! "asyncType" = Some (VStr asyncType) /\
  startMeta r asyncType j t0 !! "actionName" = Some (actionName r) /\
  startMeta r asyncType j t0 !! "requestStartTime" = Some (VNum t0).
Proof. unfold startMeta. repeat split; by simplify_map_eq. Qed.

Lemma settledMeta_stamps r asyncType j t0 now resp :
  settledMeta r asyncType j t0 now resp !! "asyncID" = Some (VNum (Z.of_nat j)) /\
  settledMeta r asyncType j t0 now resp !! "asyncType" = Some (VStr asyncType) /\
  settledMeta r asyncType j t0 now resp !! "actionName" = Some (actionName r) /\
  settledMeta r asyncType j t0 now resp !! "requestStartTime" = Some (VNum t0) /\
  settledMeta r asyncType j t0 now resp !! "resp" = Some resp /\
  settledMeta r asyncType j t0 now resp !! "requestDuration"
    = Some (VNum (now - t0)).
Proof.
  destruct (startMeta_stamps r asyncType j t0) as (H1 & H2 & H3 & H4).
  unfold settledMeta.
  repeat split; [| | | | by simplify_map_eq | by simplify_map_eq];
    by rewrite !lookup_insert_ne.
Qed.

Lemma withMeta_lookup (meta : gmap string value) a k v :
  meta !! k = Some v -> Action.meta (withMeta meta a) !! k = Some v.
Proof. intros H. simpl. by apply lookup_union_Some_l. Qed.

Lemma startAction_ofRequest r j t0 : ofRequest j (startAction r j t0).
Proof. apply withMeta_lookup, startMeta_stamps. Qed.

Lemma ofRequest_inj j k a : ofRequest j a -> ofRequest k a -> j = k.
Proof.
  unfold ofRequest. intros Hj Hk. rewrite Hj in Hk.
  injection Hk as Hk. by apply Nat2Z.inj.
Qed.

(** An action made at a settlement carries the identifier of its
    request. *)
Lemma onSettled_ofRequest r j t0 now o a :
  onSettled r j t0 now o = inr a -> ofRequest j a.
Proof.
  destruct o as [resp | resp]; simpl.
  - destruct (parse (parseSuccess r) resp); intros [= <-].
    apply withMeta_lookup, settledMeta_stamps.
  - destruct (parse (parseFail r) resp); intros [= <-].
    apply withMeta_lookup, settledMeta_stamps.
Qed.

Lemma step_dispatch m r :
  proceeds r (store m) = true ->
  step m (Dispatch (Async r)) =
    State (reducer (store m) (startAction r (nextID m) (clock m)))
          (dispatched m ++ [startAction r (nextID m) (clock m)])
          (Datatypes.S (nextID m)) (clock m)
          (<[nextID m := (r, clock m)]> (inflight m)) (uncaught m).
Proof. intros H. simpl. by rewrite H. Qed.

Lemma step_settle m j r t0 o a :
  inflight m !! j = Some (r, t0) ->
  onSettled r j t0 (clock m) o = inr a ->
  step m (Settle j o) =
    State (reducer (store m) a) (dispatched m ++ [a])
          (nextID m) (clock m) (delete j (inflight m)) (uncaught m).
Proof. intros H Ha. simpl. rewrite H, Ha. reflexivity. Qed.

(** An exception of the parse function leaves the handler: nothing is
    dispatched. *)
Lemma step_settle_throws m j r t0 o (x : exn) :
  inflight m !! j = Some (r, t0) ->
  onSettled r j t0 (clock m) o = inl x ->
  step m (Settle j o) =
    State (store m) (dispatched m)
          (nextID m) (clock m) (delete j (inflight m)) (uncaught m ++ [x]).
Proof. intros H He. simpl. rewrite H, He. reflexivity. Qed.

Lemma step_settle_none m j o :
  inflight m !! j = None -> step m (Settle j o) = m.
Proof. intros H. simpl. by rewrite H. Qed.

Lemma wellFormed_initial (s : S) : wellFormed (initial s).
Proof.
  split; simpl.
  - intros j rt. by rewrite lookup_empty.
  - by intros a Ha%elem_of_nil.
Qed.

(** Identifiers stay below the next one, which never goes down, and time
    does not run backwards. *)
Lemma step_wellFormed m e :
  wellFormed m ->
  wellFormed (step m e) /\ nextID m <= nextID (step m e) /\
  (clock m <= clock (step m e))%Z.
Proof.
  intros [Hin Hlog].
  destruct e as [[r | a] | k o | dt];
    [| by repeat split | | repeat split; [done .. | simpl; lia]].
  - destruct (proceeds r (store m)) eqn:Hp;
      [rewrite (step_dispatch _ _ Hp) | by simpl; rewrite Hp; repeat split].
    simpl. split; [| split; [lia | done]]. split; simpl.
    + intros i rt. destruct (decide (nextID m = i)) as [<- | Hne]; [lia |].
      rewrite lookup_insert_ne by done. intros Hi%Hin. lia.
    + intros a [Ha | Ha%list_elem_of_singleton]%elem_of_app.
      * destruct (Hlog a Ha) as (i & Hi & Hm). exists i. split; [lia | done].
      * subst a. exists (nextID m). split; [lia |]. apply startAction_ofRequest.
  - destruct (inflight m !! k) as [[r t0] |] eqn:Hk;
      [| by rewrite step_settle_none; repeat split].
    destruct (onSettled r k t0 (clock m) o) as [x | a] eqn:Ha.
    + rewrite (step_settle_throws _ _ _ _ _ _ Hk Ha). simpl.
      split; [| split; [lia | done]]. split; simpl.
      * intros i rt [_ Hi]%lookup_delete_Some. by apply Hin in Hi.
      * exact Hlog.
    + rewrite (step_settle _ _ _ _ _ _ Hk Ha). simpl.
      split; [| split; [lia | done]]. split; simpl.
      * intros i rt [_ Hi]%lookup_delete_Some. by apply Hin in Hi.
      * intros b [Hb | Hb%list_elem_of_singleton]%elem_of_app; [by apply Hlog |].
        subst b. exists k. split; [by apply Hin in Hk |].
        by eapply onSettled_ofRequest.
Qed.

(** Every state the middleware reaches is well formed. *)
Lemma run_wellFormed es : forall m, wellFormed m -> wellFormed (run m es).
Proof.
  induction es as [| e es IH]; intros m Hwf; [exact Hwf |].
  rewrite run_cons. apply IH. by apply step_wellFormed.
Qed.

(** One event, seen from a request [j] that it does not settle: what is
    dispatched belongs to other requests, and [j] stays as it is. *)
Lemma step_other j m e :
  wellFormed m -> j < nextID m ->
  notSettling j e \/ inflight m !! j = None ->
  exists l,
    dispatched (step m e) = dispatched m ++ l /\
    (forall a, a ∈ l -> ~ ofRequest j a) /\
    inflight (step m e) !! j = inflight m !! j.
Proof.
  intros [Hin Hlog] Hj Hquiet.
  destruct e as [[r | a] | k o | dt].
  - destruct (proceeds r (store m)) eqn:Hp.
    + rewrite (step_dispatch _ _ Hp). simpl.
      exists [startAction r (nextID m) (clock m)].
      split; [done |]. split.
      * intros a Ha%list_elem_of_singleton Hst. subst a.
        pose proof (ofRequest_inj _ _ _ Hst (startAction_ofRequest r _ _)).
        lia.
      * rewrite lookup_insert_ne by lia. done.
    + simpl. rewrite Hp. exists []. rewrite app_nil_r.
      split; [done |]. split; [by intros a Ha%elem_of_nil | done].
  - exists []. simpl. rewrite app_nil_r.
    split; [done |]. split; [by intros b Hb%elem_of_nil | done].
  - destruct (inflight m !! k) as [[r t0] |] eqn:Hk.
    + assert (Hkj : k <> j).
      { destruct Hquiet as [Hq | Hq]; [exact Hq | congruence]. }
      destruct (onSettled r k t0 (clock m) o) as [x | a] eqn:Ha.
      * rewrite (step_settle_throws _ _ _ _ _ _ Hk Ha). simpl.
        exists []. rewrite app_nil_r.
        split; [done |]. split; [by intros b Hb%elem_of_nil |].
        by rewrite lookup_delete_ne.
      * rewrite (step_settle _ _ _ _ _ _ Hk Ha). simpl.
        exists [a]. split; [done |]. split.
        -- intros b Hb%list_elem_of_singleton Hst. subst b.
           apply Hkj. symmetry.
           eapply ofRequest_inj; [exact Hst | by eapply onSettled_ofRequest].
        -- by rewrite lookup_delete_ne.
    + rewrite step_settle_none by done. exists []. rewrite app_nil_r.
      split; [done |]. split; [by intros b Hb%elem_of_nil | done].
  - exists []. simpl. rewrite app_nil_r.
    split; [done |]. split; [by intros b Hb%elem_of_nil | done].
Qed.

(** The same over a run of events: none of them settles [j], or [j] is
    not in flight. *)
Lemma run_other j es : forall m,
  wellFormed m -> j < nextID m ->
  Forall (notSettling j) es \/ inflight m !! j = None ->
  exists l,
    dispatched (run m es) = dispatched m ++ l /\
    (forall a, a ∈ l -> ~ ofRequest j a) /\
    wellFormed (run m es) /\
    j < nextID (run m es) /\
    (clock m <= clock (run m es))%Z /\
    inflight (run m es) !! j = inflight m !! j.
Proof.
  induction es as [| e es IH]; intros m Hwf Hj Hquiet.
  - exists []. simpl. rewrite app_nil_r.
    split; [done |]. split; [by intros a Ha%elem_of_nil |].
    split; [exact Hwf |]. split; [exact Hj |]. split; [lia | done].
  - rewrite run_cons.
    assert (Hq1 : notSettling j e \/ inflight m !! j = None).
    { destruct Hquiet as [Hq | Hq]; [left; by inversion Hq | by right]. }
    destruct (step_other j m e Hwf Hj Hq1) as (l1 & Hl1 & Hf1 & Hi1).
    destruct (step_wellFormed m e Hwf) as (Hwf1 & Hn1 & Hc1).
    destruct (IH (step m e)) as (l2 & Hl2 & Hf2 & Hwf2 & Hj2 & Hc2 & Hi2).
    { exact Hwf1. }
    { lia. }
    { destruct Hquiet as [Hq | Hq]; [left; by inversion Hq | right; congruence]. }
    exists (l1 ++ l2).
    split; [by rewrite Hl2, Hl1, app_assoc |].
    split; [intros a [Ha | Ha]%elem_of_app; eauto |].
    split; [done |]. split; [done |].
    split; [lia | congruence].
Qed.

(** The life of a request that is made and later settles, its handler
    making the action [act now] at the time [now] of the settlement: its
    start action, then actions of other requests, then its settled
    action, then again actions of other requests; the settlement adds
    nothing to the exceptions that escaped. *)
Lemma settled_request_trace m r evs o later (act : Z -> Action.t) :
  wellFormed m ->
  proceeds r (store m) = true ->
  Forall (notSettling (nextID m)) evs ->
  (forall now, onSettled r (nextID m) (clock m) now o = inr (act now)) ->
  exists now mid post,
    (clock m <= now)%Z /\
    dispatched (run m (Dispatch (Async r) :: evs
                        ++ Settle (nextID m) o :: later)) =
      dispatched m ++ startAction r (nextID m) (clock m) :: mid
        ++ act now :: post /\
    (forall a, a ∈ dispatched m ++ mid ++ post -> ~ ofRequest (nextID m) a) /\
    uncaught (run m (Dispatch (Async r) :: evs ++ [Settle (nextID m) o])) =
      uncaught (run m (Dispatch (Async r) :: evs)).
Proof.
  intros Hwf Hp Hevs Hact. set (j := nextID m) in *.
  rewrite !run_cons, !run_app, !run_cons.
  destruct (step_wellFormed m (Dispatch (Async r)) Hwf) as (Hwf1 & _ & _).
  revert Hwf1. rewrite (step_dispatch _ _ Hp). fold j.
  set (m1 := State _ _ _ _ _ _). intros Hwf1.
  assert (Hj1 : j < nextID m1) by (simpl; lia).
  assert (Hin1 : inflight m1 !! j = Some (r, clock m)) by apply lookup_insert_eq.
  destruct (run_other j evs m1 Hwf1 Hj1 (or_introl Hevs))
    as (mid & Hmid & Hfmid & Hwf2 & Hj2 & Hc2 & Hin2).
  rewrite Hin1 in Hin2.
  destruct (step_wellFormed (run m1 evs) (Settle j o) Hwf2) as (Hwf3 & Hn3 & _).
  revert Hwf3 Hn3. rewrite (step_settle _ _ _ _ _ _ Hin2 (Hact _)).
  set (m3 := State _ _ _ _ _ _). intros Hwf3 Hn3.
  assert (Hj3 : j < nextID m3) by (simpl in *; lia).
  assert (Hin3 : inflight m3 !! j = None) by apply lookup_delete_eq.
  destruct (run_other j later m3 Hwf3 Hj3 (or_intror Hin3))
    as (post & Hpost & Hfpost & _).
  exists (clock (run m1 evs)), mid, post.
  split; [exact Hc2 |]. split; [| split].
  - rewrite Hpost. simpl. rewrite Hmid. simpl.
    rewrite <- !app_assoc. reflexivity.
  - intros a [Ha | [Ha | Ha]%elem_of_app]%elem_of_app Hst.
    + destruct Hwf as [_ Hlog]. destruct (Hlog a Ha) as (i & Hi & Hm).
      pose proof (ofRequest_inj _ _ _ Hst Hm). subst j. lia.
    + by eapply Hfmid.
    + by eapply Hfpost.
  - reflexivity.
Qed.

(** What the start action of a request is, when its start creator is the
    plain action creator of a type. *)
Lemma startAction_is r j t0 START :
  (forall p, startActionCreator r p = Action.Make START p ∅) ->
  Action.type (startAction r j t0) = START /\
  Action.payload (startAction r j t0) = default VNull (parseStart r) /\
  Action.meta (startAction r j t0) !! "asyncType" = Some (VStr "start") /\
  Action.meta (startAction r j t0) !! "asyncID" = Some (VNum (Z.of_nat j)) /\
  Action.meta (startAction r j t0) !! "actionName" = Some (actionName r) /\
  Action.meta (startAction r j t0) !! "requestStartTime" = Some (VNum t0).
Proof.
  intros Hc. destruct (startMeta_stamps r "start" j t0) as (H1 & H2 & H3 & H4).
  unfold startAction. rewrite Hc.
  repeat split; try reflexivity; by apply withMeta_lookup.
Qed.

(** What a settled action is, for a settled creator that is the plain
    action creator of a type. *)
Lemma settled_is r (creator : value -> Action.t) asyncType j t0 now resp
    payload TYPE :
  (forall p, creator p = Action.Make TYPE p ∅) ->
  let a := withMeta (settledMeta r asyncType j t0 now resp) (creator payload) in
  Action.type a = TYPE /\
  Action.payload a = payload /\
  Action.meta a !! "asyncType" = Some (VStr asyncType) /\
  Action.meta a !! "asyncID" = Some (VNum (Z.of_nat j)) /\
  Action.meta a !! "actionName" = Some (actionName r) /\
  Action.meta a !! "requestStartTime" = Some (VNum t0) /\
  Action.meta a !! "resp" = Some resp /\
  Action.meta a !! "requestDuration" = Some (VNum (now - t0)).
Proof.
  intros Hc a.
  destruct (settledMeta_stamps r asyncType j t0 now resp)
    as (H1 & H2 & H3 & H4 & H5 & H6).
  subst a. rewrite Hc.
  repeat split; try reflexivity; by apply withMeta_lookup.
Qed.

(** C1.  When an intercepted action is dispatched, its request is made
    and the promise of the request resolves, the log of the middleware
    holds the start action of the request, of the start type and stamped
    as its start, and strictly later its success action, of the success
    type and stamped as its success, whose payload is [parseSuccess]
    applied to the response; every other action in the log belongs to
    another request. *)
Theorem resolved_request_start_then_success m r evs resp later
    START SUCCESS payload :
  wellFormed m ->
  proceeds r (store m) = true ->
  Forall (notSettling (nextID m)) evs ->
  (forall p, startActionCreator r p = Action.Make START p ∅) ->
  (forall p, successActionCreator r p = Action.Make SUCCESS p ∅) ->
  parse (parseSuccess r) resp = inr payload ->
  exists start success mid post duration,
    dispatched (run m (Dispatch (Async r) :: evs
                        ++ Settle (nextID m) (Resolved resp) :: later)) =
      dispatched m ++ start :: mid ++ success :: post /\
    Action.type start = START /\
    Action.payload start = default VNull (parseStart r) /\
    Action.meta start !! "asyncType" = Some (VStr "start") /\
    Action.meta start !! "asyncID" = Some (VNum (Z.of_nat (nextID m))) /\
    Action.meta start !! "actionName" = Some (actionName r) /\
    Action.meta start !! "requestStartTime" = Some (VNum (clock m)) /\
    Action.type success = SUCCESS /\
    Action.payload success = payload /\
    Action.meta success !! "asyncType" = Some (VStr "success") /\
    Action.meta success !! "asyncID" = Some (VNum (Z.of_nat (nextID m))) /\
    Action.meta success !! "actionName" = Some (actionName r) /\
    Action.meta success !! "requestStartTime" = Some (VNum (clock m)) /\
    Action.meta success !! "resp" = Some resp /\
    Action.meta success !! "requestDuration" = Some (VNum duration) /\
    (0 <= duration)%Z /\
    (forall a, a ∈ dispatched m ++ mid ++ post ->
       Action.meta a !! "asyncID" <> Some (VNum (Z.of_nat (nextID m)))).
Proof.
  intros Hwf Hp Hevs Hstart Hsuccess Hparse.
  destruct (settled_request_trace m r evs (Resolved resp) later
              (fun now => successAction r (nextID m) (clock m) now resp payload)
              Hwf Hp Hevs)
    as (now & mid & post & Hnow & Hlog & Hother & _).
  { intros now. simpl. by rewrite Hparse. }
  destruct (startAction_is r (nextID m) (clock m) START Hstart)
    as (S1 & S2 & S3 & S4 & S5 & S6).
  destruct (settled_is r (successActionCreator r) "success" (nextID m)
              (clock m) now resp payload SUCCESS Hsuccess)
    as (T1 & T2 & T3 & T4 & T5 & T6 & T7 & T8).
  exists (startAction r (nextID m) (clock m)),
         (successAction r (nextID m) (clock m) now resp payload),
         mid, post, (now - clock m)%Z.
  split; [exact Hlog |].
  do 6 (split; [assumption |]).
  do 8 (split; [assumption |]).
  split; [lia | exact Hother].
Qed.

(** C2.  When an intercepted action is dispatched, its request is made
    and the promise of the request rejects, the rejection does not leave
    the handler: the settlement adds nothing to the exceptions that
    escaped, and the log of the middleware holds the start action of the
    request and strictly later its fail action, of the fail type and
    stamped as its fail, whose payload is [parseFail] applied to the
    rejection value.  Every action of the request in the log is of the
    start or of the fail type and none is stamped as a success: no
    success action is dispatched. *)
Theorem rejected_request_start_then_fail m r evs resp later
    START FAIL payload :
  wellFormed m ->
  proceeds r (store m) = true ->
  Forall (notSettling (nextID m)) evs ->
  (forall p, startActionCreator r p = Action.Make START p ∅) ->
  (forall p, failActionCreator r p = Action.Make FAIL p ∅) ->
  parse (parseFail r) resp = inr payload ->
  exists start fail mid post duration,
    dispatched (run m (Dispatch (Async r) :: evs
                        ++ Settle (nextID m) (Rejected resp) :: later)) =
      dispatched m ++ start :: mid ++ fail :: post /\
    Action.type start = START /\
    Action.payload start = default VNull (parseStart r) /\
    Action.meta start !! "asyncType" = Some (VStr "start") /\
    Action.meta start !! "asyncID" = Some (VNum (Z.of_nat (nextID m))) /\
    Action.meta start !! "actionName" = Some (actionName r) /\
    Action.meta start !! "requestStartTime" = Some (VNum (clock m)) /\
    Action.type fail = FAIL /\
    Action.payload fail = payload /\
    Action.meta fail !! "asyncType" = Some (VStr "fail") /\
    Action.meta fail !! "asyncID" = Some (VNum (Z.of_nat (nextID m))) /\
    Action.meta fail !! "actionName" = Some (actionName r) /\
    Action.meta fail !! "requestStartTime" = Some (VNum (clock m)) /\
    Action.meta fail !! "resp" = Some resp /\
    Action.meta fail !! "requestDuration" = Some (VNum duration) /\
    (0 <= duration)%Z /\
    (forall a, a ∈ dispatched m ++ mid ++ post ->
       Action.meta a !! "asyncID" <> Some (VNum (Z.of_nat (nextID m)))) /\
    uncaught (run m (Dispatch (Async r) :: evs
                      ++ [Settle (nextID m) (Rejected resp)])) =
      uncaught (run m (Dispatch (Async r) :: evs)) /\
    (forall a,
       a ∈ dispatched (run m (Dispatch (Async r) :: evs
                               ++ Settle (nextID m) (Rejected resp) :: later)) ->
       Action.meta a !! "asyncID" = Some (VNum (Z.of_nat (nextID m))) ->
       (Action.type a = START \/ Action.type a = FAIL) /\
       Action.meta a !! "asyncType" <> Some (VStr "success")).
Proof.
  intros Hwf Hp Hevs Hstart Hfail Hparse.
  destruct (settled_request_trace m r evs (Rejected resp) later
              (fun now => failAction r (nextID m) (clock m) now resp payload)
              Hwf Hp Hevs)
    as (now & mid & post & Hnow & Hlog & Hother & Hun).
  { intros now. simpl. by rewrite Hparse. }
  destruct (startAction_is r (nextID m) (clock m) START Hstart)
    as (S1 & S2 & S3 & S4 & S5 & S6).
  destruct (settled_is r (failActionCreator r) "fail" (nextID m)
              (clock m) now resp payload FAIL Hfail)
    as (T1 & T2 & T3 & T4 & T5 & T6 & T7 & T8).
  exists (startAction r (nextID m) (clock m)),
         (failAction r (nextID m) (clock m) now resp payload),
         mid, post, (now - clock m)%Z.
  split; [exact Hlog |].
  do 6 (split; [assumption |]).
  do 8 (split; [assumption |]).
  split; [lia |]. split; [exact Hother |]. split; [exact Hun |].
  rewrite Hlog. intros a Ha Hid.
  apply elem_of_app in Ha as [Ha | Ha].
  { destruct (Hother a); [apply elem_of_app; by left | exact Hid]. }
  apply elem_of_cons in Ha as [-> | Ha].
  { split; [by left |]. rewrite S3. discriminate. }
  apply elem_of_app in Ha as [Ha | Ha].
  { destruct (Hother a); [| exact Hid].
    apply elem_of_app; right. apply elem_of_app; by left. }
  apply elem_of_cons in Ha as [-> | Ha].
  { split; [by right |]. unfold failAction. rewrite T3. discriminate. }
  destruct (Hother a); [| exact Hid].
  apply elem_of_app; right. apply elem_of_app; by right.
Qed.

(** C3.  When the [shouldMakeRequest] predicate of an intercepted action
    is false on the current state of the store, the dispatch changes
    nothing: no start action is dispatched, no request is in flight for
    it, and whatever happens next happens as if the action had not been
    dispatched, so no success or fail action comes of it either. *)
Theorem predicate_false_dispatches_nothing m r p es :
  shouldMakeRequest r = Some p ->
  p (store m) = false ->
  step m (Dispatch (Async r)) = m /\
  dispatched (step m (Dispatch (Async r))) = dispatched m /\
  inflight (step m (Dispatch (Async r))) = inflight m /\
  nextID (step m (Dispatch (Async r))) = nextID m /\
  run m (Dispatch (Async r) :: es) = run m es.
Proof.
  intros Hr Hp.
  assert (Hskip : step m (Dispatch (Async r)) = m).
  { simpl. unfold proceeds. by rewrite Hr, Hp. }
  rewrite run_cons, Hskip. done.
Qed.

End Lifecycle.
End MiddlewareFacts.

(** ** The middleware on the sample store *)

Module MiddlewareExamples.
Import JS Middleware MiddlewareFacts.
Local Open Scope list_scope.

Local Abbreviation run := (Middleware.run Sample.reducer).
Local Abbreviation fresh := (@Middleware.initial nat 0).
Local Abbreviation busy :=
  (run fresh [Dispatch (Plain (createAction (VStr "OTHER") VNull))]).
Local Abbreviation others :=
  [@Tick nat 5; Dispatch (Plain (createAction (VStr "OTHER") VNull));
   Settle 7 (Resolved VNull)].

Lemma sample_events_do_not_settle : Forall (@notSettling nat 0) others.
Proof. repeat constructor. simpl. lia. Qed.

Lemma resolved_request_start_then_success_witness :
  exists start success mid post,
    dispatched (run fresh
      (Dispatch (Async Sample.getPosts)
         :: others ++ Settle 0 (Resolved (VStr "posts")) :: [Tick 1])) =
      [] ++ start :: mid ++ success :: post /\
    Action.type start = VStr "GET_POSTS_START" /\
    Action.type success = VStr "GET_POSTS_SUCCESS" /\
    Action.payload success = VArr [VStr "posts"].
Proof.
  destruct (resolved_request_start_then_success Sample.reducer fresh
              Sample.getPosts others (VStr "posts") [Tick 1]
              (VStr "GET_POSTS_START") (VStr "GET_POSTS_SUCCESS")
              (VArr [VStr "posts"])
              (wellFormed_initial 0) eq_refl sample_events_do_not_settle
              (fun p => eq_refl) (fun p => eq_refl) eq_refl)
    as (start & success & mid & post & duration & Hlog & Hty & _ & _ & _ & _
        & _ & Hty' & Hpay & _).
  exists start, success, mid, post. repeat split; assumption.
Defined.

Lemma rejected_request_start_then_fail_witness :
  exists start fail mid post,
    dispatched (run fresh
      (Dispatch (Async Sample.getPosts)
         :: others ++ Settle 0 (Rejected (VStr "timeout")) :: [Tick 1])) =
      [] ++ start :: mid ++ fail :: post /\
    Action.type fail = VStr "GET_POSTS_FAIL" /\
    Action.payload fail = VObj (<["error" := VStr "timeout"]> ∅) /\
    uncaught (run fresh
      (Dispatch (Async Sample.getPosts)
         :: others ++ [Settle 0 (Rejected (VStr "timeout"))])) =
    uncaught (run fresh (Dispatch (Async Sample.getPosts) :: others)).
Proof.
  destruct (rejected_request_start_then_fail Sample.reducer fresh
              Sample.getPosts others (VStr "timeout") [Tick 1]
              (VStr "GET_POSTS_START") (VStr "GET_POSTS_FAIL")
              (VObj (<["error" := VStr "timeout"]> ∅))
              (wellFormed_initial 0) eq_refl sample_events_do_not_settle
              (fun p => eq_refl) (fun p => eq_refl) eq_refl)
    as (start & fail & mid & post & duration & Hlog & _ & _ & _ & _ & _
        & _ & Hty' & Hpay & _ & _ & _ & _ & _ & _ & _ & _ & Hun & _).
  exists start, fail, mid, post. repeat split; assumption.
Defined.

(** An exception of [parseFail] does escape: the handlers catch the
    rejection, not what the parse function throws. *)
Lemma parse_exception_escapes :
  uncaught (run fresh
    [Dispatch (Async Sample.getPostsThrowing);
     Settle 0 (Rejected (VStr "timeout"))]) = [Thrown (VStr "timeout")] /\
  length (dispatched (run fresh
    [Dispatch (Async Sample.getPostsThrowing);
     Settle 0 (Rejected (VStr "timeout"))])) = 1%nat.
Proof. split; reflexivity. Qed.

(** The sample request is skipped once the store has reduced an action. *)
Lemma predicate_false_dispatches_nothing_witness :
  Middleware.step Sample.reducer busy (Dispatch (Async Sample.getPosts)) = busy /\
  dispatched (Middleware.step Sample.reducer busy (Dispatch (Async Sample.getPosts))) = [].
Proof.
  destruct (predicate_false_dispatches_nothing Sample.reducer busy
              Sample.getPosts (fun count => Nat.eqb count 0) []
              eq_refl eq_refl) as (Hskip & Hlog & _).
  split; [exact Hskip | exact Hlog].
Defined.

End MiddlewareExamples.

(** ** More on the async action-creator factory *)

Module AsyncActionMore.
Import JS Run AsyncAction AsyncActionFacts JSFacts.

Lemma not_read (k : string) :
  k ∉ readKeys ->
  k <> "actionName" /\ k <> "start" /\ k <> "success" /\ k <> "fail".
Proof.
  unfold readKeys. rewrite !not_elem_of_cons. tauto.
Qed.

Section Decorate.
Context {σ : Type}.
Variable createAction : value -> value.

Local Abbreviation decorateActionCreator :=
  (@decorateActionCreator σ createAction).

Implicit Types (f : function_object σ) (w : heap σ).

(** X7.  [decorateActionCreator] throws a [TypeError] on constants that
    are [null] or [undefined] and changes nothing then; on any other
    constants it assigns the eight properties to the function and keeps
    every other property of it, and leaves every other function and the
    rest of the world untouched. *)
Theorem decorateActionCreator_keeps f c w :
  (c = VNull \/ c = VUndefined ->
     decorateActionCreator f c w = (inl TypeError, w)) /\
  (c <> VNull -> c <> VUndefined ->
     exists w',
       decorateActionCreator f c w = (inr tt, w') /\
       user w' = user w /\
       (forall l, l <> address f -> functions w' !! l = functions w !! l) /\
       (forall k, k ∉ decoratedKeys -> own f w' !! k = own f w !! k) /\
       dom (own f w') = dom (own f w) ∪ list_to_set decoratedKeys).
Proof.
  split.
  - intros [-> | ->]; reflexivity.
  - intros Hnull Hundef.
    destruct (decorateActionCreator_returns createAction f c w Hnull Hundef)
      as (START & SUCCESS & FAIL & NAME & _ & _ & _ & _ & Hdec).
    eexists. split; [exact Hdec |]. cbn [user functions].
    split; [reflexivity |].
    split; [intros l Hl; by rewrite lookup_insert_ne |].
    match goal with
    | |- context [own f (Heap (<[_ := ?p]> _) _)] =>
        assert (Hown : own f (Heap (<[address f := p]> (functions w)) (user w))
                       = p) by apply at_address_insert
    end.
    rewrite Hown. split.
    + intros k Hk. by apply decorated_other.
    + rewrite !dom_insert_L. unfold decoratedKeys. simpl.
      apply set_eq. intros k. set_unfold. tauto.
Qed.

(** X8.  Decorating a function a second time replaces what the first
    decoration assigned: with constants that can be destructured the
    result is that of decorating the original function with the second
    constants alone, and with [null] or [undefined] the second decoration
    throws and the first stays.  With the same constants twice, the
    second decoration changes nothing. *)
Theorem decorateActionCreator_again f c1 c2 w w1 :
  decorateActionCreator f c1 w = (inr tt, w1) ->
  (c2 <> VNull -> c2 <> VUndefined ->
     decorateActionCreator f c2 w1 = decorateActionCreator f c2 w) /\
  (c2 = VNull \/ c2 = VUndefined ->
     decorateActionCreator f c2 w1 = (inl TypeError, w1)) /\
  decorateActionCreator f c1 w1 = (inr tt, w1).
Proof.
  unfold AsyncAction.decorateActionCreator, bind, lift, ret, update.
  destruct (get c1 "START_TYPE") as [e | S1]; [discriminate |].
  destruct (get c1 "SUCCESS_TYPE") as [e | U1]; [discriminate |].
  destruct (get c1 "FAIL_TYPE") as [e | F1]; [discriminate |].
  destruct (get c1 "NAME") as [e | N1]; [discriminate |].
  intros [= <-]. rewrite at_address_insert. cbn [functions user].
  assert (Hlast : forall a b c d e g h i : value,
    <["actionName" := a]> (<["fail" := b]> (<["success" := c]>
    (<["start" := d]> (<["NAME" := e]> (<["FAIL_TYPE" := g]>
    (<["SUCCESS_TYPE" := h]> (<["START_TYPE" := i]>
      (<["actionName" := N1]> (<["fail" := createAction F1]>
      (<["success" := createAction U1]> (<["start" := createAction S1]>
      (<["NAME" := N1]> (<["FAIL_TYPE" := F1]> (<["SUCCESS_TYPE" := U1]>
      (<["START_TYPE" := S1]> (at_address (address f) w)))))))))))))))) =
    <["actionName" := a]> (<["fail" := b]> (<["success" := c]>
    (<["start" := d]> (<["NAME" := e]> (<["FAIL_TYPE" := g]>
    (<["SUCCESS_TYPE" := h]> (<["START_TYPE" := i]>
      (at_address (address f) w))))))))).
  { intros a b c d e g h i. apply map_eq. intros k.
    destruct (decide (k ∈ decoratedKeys)) as [Hk | Hk].
    - unfold decoratedKeys in Hk. set_unfold.
      destruct Hk as [-> | [-> | [-> | [-> | [-> | [-> | [-> | [-> | []]]]]]]]];
        by simplify_map_eq.
    - by rewrite !decorated_other. }
  split; [| split].
  - intros Hn Hu.
    destruct (get_returns c2 "START_TYPE" Hn Hu) as [S2 ->].
    destruct (get_returns c2 "SUCCESS_TYPE" Hn Hu) as [U2 ->].
    destruct (get_returns c2 "FAIL_TYPE" Hn Hu) as [F2 ->].
    destruct (get_returns c2 "NAME" Hn Hu) as [N2 ->].
    by rewrite Hlast, insert_insert_eq.
  - intros [-> | ->]; reflexivity.
  - by rewrite Hlast, insert_insert_eq.
Qed.

End Decorate.

Section More.
Context {σ : Type}.
Variable ERRORS : errors.
Variable REDUX_EASY_ASYNC_NAMESPACE : value.
Variable getOrCreateAsyncConstants : value -> M (heap σ) value.
Variable createAction : value -> value.

Local Abbreviation createAsyncAction :=
  (createAsyncAction ERRORS REDUX_EASY_ASYNC_NAMESPACE
     getOrCreateAsyncConstants createAction).
Local Abbreviation factory_returns :=
  (createAsyncAction_returns ERRORS REDUX_EASY_ASYNC_NAMESPACE
     getOrCreateAsyncConstants createAction).

Implicit Types (fn : list value -> M (heap σ) value) (w : heap σ).

(** The closure on each kind of descriptor. *)
Lemma actionCreator_outcome namespace fn self args w v w' :
  fn args w = (inr v, w') ->
  actionCreator ERRORS namespace fn self args w =
    (if negb (String.eqb (typeof v) "object")
     then inl (Error (ACTION_NOT_OBJECT ERRORS))
     else match get v "makeRequest" with
          | inl e => inl e
          | inr (VFun _) =>
              inr (VObj
                (<["failActionCreator" := prop (at_address self w') "fail"]>
                (<["successActionCreator" := prop (at_address self w') "success"]>
                (<["startActionCreator" := prop (at_address self w') "start"]>
                (<["actionName" := prop (at_address self w') "actionName"]>
                (<["actionCreatorArgs" := VArr args]>
                   (spread v ∪ <["type" := namespace]> ∅)))))))
          | inr _ => inl (Error (MAKE_REQUEST_NOT_FUNCTION ERRORS))
          end, w').
Proof.
  intros Hfn. unfold actionCreator, bind, lift, ret, throw, properties.
  rewrite Hfn.
  destruct (negb (typeof v =? "object")); [reflexivity |].
  destruct (get v "makeRequest") as [e | []]; reflexivity.
Qed.

(** X1.  The creator made by [createAsyncAction] returns an action
    exactly when [fn] returned a value whose [typeof] is ["object"] and
    whose [makeRequest], its own or one from beyond, is a function; on
    every other return value of [fn] it throws. *)
Theorem creator_returns_iff type fn options w c w' :
  getOrCreateAsyncConstants type w = (inr c, w') ->
  truthy c = true ->
  exists creator w'',
    createAsyncAction type fn (passed options) w = (inr creator, w'') /\
    forall args w1 v w2,
      fn args w1 = (inr v, w2) ->
      ((exists a w3, invoke creator args w1 = (inr a, w3)) <->
       (typeof v = "object" /\
        exists g, get v "makeRequest" = inr (VFun g))).
Proof.
  intros Hgen Hc.
  destruct (factory_returns type fn options w c w' Hgen Hc)
    as (START & SUCCESS & FAIL & NAME & _ & _ & _ & _ & Hmk).
  eexists _, _. split; [exact Hmk |].
  intros args w1 v w2 Hfn. unfold invoke. cbn [body].
  rewrite (actionCreator_outcome _ _ _ _ _ _ _ Hfn).
  split.
  - intros (a & w3 & Ha).
    destruct (typeof v =? "object") eqn:Hty; [| discriminate Ha].
    apply String.eqb_eq in Hty. split; [exact Hty |].
    cbn [negb] in Ha.
    destruct (get v "makeRequest") as [e | []]; try discriminate Ha.
    eauto.
  - intros (Hty & g & Hg). rewrite Hty, Hg. simpl. eauto.
Qed.

(** X2.  Which exception the creator throws: the [ACTION_NOT_OBJECT] error
    when [fn] returned [undefined], a boolean, a number, a string or a
    function; a [TypeError] when it returned [null]; the
    [MAKE_REQUEST_NOT_FUNCTION] error when it returned an array with
    nothing but its elements, whatever they are, or an object, plain or
    not, whose [makeRequest] is missing or not a function.  In each case
    the world is as [fn] left it. *)
Theorem creator_throws type fn options w c w' :
  getOrCreateAsyncConstants type w = (inr c, w') ->
  truthy c = true ->
  exists creator w'',
    createAsyncAction type fn (passed options) w = (inr creator, w'') /\
    forall args w1 v w2,
      fn args w1 = (inr v, w2) ->
      match v with
      | VNull => invoke creator args w1 = (inl TypeError, w2)
      | VUndefined | VBool _ | VNum _ | VStr _ | VFun _ =>
          invoke creator args w1 = (inl (Error (ACTION_NOT_OBJECT ERRORS)), w2)
      | VArr _ =>
          invoke creator args w1 =
            (inl (Error (MAKE_REQUEST_NOT_FUNCTION ERRORS)), w2)
      | VObj m =>
          (forall g, m !! "makeRequest" <> Some (VFun g)) ->
          invoke creator args w1 =
            (inl (Error (MAKE_REQUEST_NOT_FUNCTION ERRORS)), w2)
      | VInstance _ _ =>
          (forall g, get v "makeRequest" <> inr (VFun g)) ->
          invoke creator args w1 =
            (inl (Error (MAKE_REQUEST_NOT_FUNCTION ERRORS)), w2)
      end.
Proof.
  intros Hgen Hc.
  destruct (factory_returns type fn options w c w' Hgen Hc)
    as (START & SUCCESS & FAIL & NAME & _ & _ & _ & _ & Hmk).
  eexists _, _. split; [exact Hmk |].
  intros args w1 v w2 Hfn. unfold invoke. cbn [body].
  rewrite (actionCreator_outcome _ _ _ _ _ _ _ Hfn).
  destruct v as [| | b | n | s | xs | m | g | o b]; try reflexivity.
  - cbn [typeof String.eqb Ascii.eqb Bool.eqb negb].
    by rewrite array_makeRequest.
  - intros Hm. cbn [typeof String.eqb Ascii.eqb Bool.eqb negb get].
    destruct (m !! "makeRequest") as [[| | | | | | | g |] |]; try reflexivity.
    by destruct (Hm g).
  - intros Hm. cbn [typeof String.eqb Ascii.eqb Bool.eqb negb].
    destruct (get (VInstance o b) "makeRequest") as [e | [| | | | | | | g |]] eqn:Hg;
      try reflexivity.
    + discriminate Hg.
    + by destruct (Hm g).
Qed.

(** X3.  The keys of a built action are the own enumerable keys of the
    object [fn] returned, [type], and the five assigned keys, and no
    other. *)
Theorem action_keys type fn options w c w' args w1 v makeRequest w2 :
  getOrCreateAsyncConstants type w = (inr c, w') ->
  truthy c = true ->
  fn args w1 = (inr v, w2) ->
  typeof v = "object" ->
  get v "makeRequest" = inr makeRequest ->
  typeof makeRequest = "function" ->
  exists creator w'' r,
    createAsyncAction type fn (passed options) w = (inr creator, w'') /\
    invoke creator args w1 = (inr (VObj r), w2) /\
    dom r = dom (spread v) ∪ {["type"]} ∪ list_to_set assignedKeys.
Proof.
  intros Hgen Hc Hfn Hv Hget Hmr.
  destruct (factory_returns type fn options w c w' Hgen Hc)
    as (START & SUCCESS & FAIL & NAME & _ & _ & _ & _ & Hmk).
  eexists _, _, _. split; [exact Hmk |].
  split; [unfold invoke; cbn [body]; eapply actionCreator_returns; eassumption |].
  rewrite !dom_insert_L, dom_union_L, dom_insert_L, dom_empty_L.
  unfold assignedKeys. simpl.
  apply set_eq. intros k. set_unfold. tauto.
Qed.

(** X4.  The creator [createAsyncAction] returns has exactly the eight
    properties [START_TYPE], [SUCCESS_TYPE], [FAIL_TYPE], [NAME], [start],
    [success], [fail] and [actionName], and its [actionName] is its
    [NAME]. *)
Theorem creator_keys type fn options w c w' :
  getOrCreateAsyncConstants type w = (inr c, w') ->
  truthy c = true ->
  exists creator w'',
    createAsyncAction type fn (passed options) w = (inr creator, w'') /\
    dom (own creator w'') = list_to_set decoratedKeys /\
    own creator w'' !! "actionName" = own creator w'' !! "NAME".
Proof.
  intros Hgen Hc.
  destruct (factory_returns type fn options w c w' Hgen Hc)
    as (START & SUCCESS & FAIL & NAME & _ & _ & _ & _ & Hmk).
  eexists _, _. split; [exact Hmk |].
  unfold own. cbn [address]. rewrite at_address_insert. split.
  - rewrite !dom_insert_L, dom_empty_L. unfold decoratedKeys. simpl.
    apply set_eq. intros k. set_unfold. tauto.
  - by simplify_map_eq.
Qed.


Lemma fieldsRead_readKeys (k field : string) :
  (k, field) ∈ fieldsRead -> k ∈ readKeys.
Proof.
  unfold fieldsRead, readKeys. set_unfold.
  intros [[= -> ->] | [[= -> ->] | [[= -> ->] | [[= -> ->] | []]]]]; tauto.
Qed.


(** The third argument can be destructured unless it is [null]. *)
Lemma options_destructured (options : value) :
  options <> VNull ->
  exists namespace,
    get (match options with VUndefined => VObj ∅ | _ => options end) "namespace"
      = inr namespace.
Proof.
  intros Hn. apply get_returns; destruct options; congruence.
Qed.

(** X6.  [createAsyncAction] throws in three ways only: a [TypeError]
    when its third argument is [null], before anything else is done; what
    the constant generator throws, as it is; and the
    [ASYNC_TYPE_NOT_VALID] error when the generator returned a falsy
    value.  Decorating the creator never throws there, and nothing that
    [fn] would do can make the factory throw. *)
Theorem createAsyncAction_throws_iff type fn (options : value) w e w' :
  createAsyncAction type fn options w = (inl e, w') <->
  (options = VNull /\ e = TypeError /\ w' = w) \/
  (options <> VNull /\ getOrCreateAsyncConstants type w = (inl e, w')) \/
  (options <> VNull /\
   exists c,
     getOrCreateAsyncConstants type w = (inr c, w') /\
     truthy c = false /\
     e = Error ("createAsyncAction(type, fn, options): "
                  ++ ASYNC_TYPE_NOT_VALID ERRORS)).
Proof.
  assert (options = VNull \/ options <> VNull) as [-> | Hopt]
    by (destruct options; (by left) || (right; discriminate)).
  { split.
    - intros [= <- <-]. by left.
    - intros [(_ & -> & ->) | [[H _] | [H _]]]; [reflexivity | done | done]. }
  destruct (options_destructured options Hopt) as [namespace Hns].
  split.
  - intros Hthrow. right.
    destruct (getOrCreateAsyncConstants type w) as [[e0 | c] w0] eqn:Hgen.
    + left. split; [exact Hopt |]. revert Hthrow.
      unfold AsyncAction.createAsyncAction, bind, lift.
      rewrite Hns, Hgen. congruence.
    + right. split; [exact Hopt |]. destruct (truthy c) eqn:Hc.
      * destruct (createAsyncAction_made ERRORS REDUX_EASY_ASYNC_NAMESPACE
                    getOrCreateAsyncConstants createAction
                    type fn options namespace w c w0 Hns Hgen Hc)
          as (START & SUCCESS & FAIL & NAME & _ & _ & _ & _ & Hmk).
        rewrite Hmk in Hthrow. discriminate.
      * revert Hthrow.
        unfold AsyncAction.createAsyncAction, bind, lift, throw.
        rewrite Hns, Hgen, Hc. intros [= <- <-]. by exists c.
  - intros [(H & _) | [(_ & Hgen) | (_ & c & Hgen & Hc & ->)]]; [done | |].
    + unfold AsyncAction.createAsyncAction, bind, lift. by rewrite Hns, Hgen.
    + unfold AsyncAction.createAsyncAction, bind, lift, throw.
      by rewrite Hns, Hgen, Hc.
Qed.


End More.
End AsyncActionMore.

(** ** More of the factory on the sample configuration *)

Module AsyncActionMoreExamples.
Import JS Run AsyncAction AsyncActionFacts AsyncActionMore.

Local Abbreviation made :=
  (snd (Sample.generator (VStr "GET_POSTS") Sample.initial)).
Local Abbreviation constants :=
  (VObj (AsyncConstants.deriveConstants Sample.displayName "GET_POSTS")).
Local Abbreviation others :=
  (VObj (AsyncConstants.deriveConstants Sample.displayName "GET_USERS")).
Local Abbreviation f := (VFun (UserFunction 0)).
Local Abbreviation descriptor :=
  (VObj (<["makeRequest" := f]> (∅ : gmap string value))).
Local Abbreviation instance :=
  (VInstance ∅ (<["makeRequest" := f]> (∅ : gmap string value))).
Local Abbreviation created :=
  (Heap (<[0 := <["actionName" := VStr "GET_POSTS"]>
               (<["fail" := Sample.createAction (VStr "GET_POSTS_FAIL")]>
               (<["success" := Sample.createAction (VStr "GET_POSTS_SUCCESS")]>
               (<["start" := Sample.createAction (VStr "GET_POSTS_START")]>
               (<["NAME" := VStr "GET_POSTS"]>
               (<["FAIL_TYPE" := VStr "GET_POSTS_FAIL"]>
               (<["SUCCESS_TYPE" := VStr "GET_POSTS_SUCCESS"]>
               (<["START_TYPE" := VStr "GET_POSTS_START"]> ∅)))))))]> ∅)
        (user made)).

(** An instance of a class whose method is [makeRequest] is accepted. *)
Lemma creator_returns_iff_witness :
  exists creator w'' a w3,
    Sample.createAsyncAction (VStr "GET_POSTS") Sample.returnsInstance
      (passed None) Sample.initial = (inr creator, w'') /\
    invoke creator [] created = (inr a, w3).
Proof.
  destruct (creator_returns_iff Sample.ERRORS Sample.REDUX_EASY_ASYNC_NAMESPACE
              Sample.generator Sample.createAction (VStr "GET_POSTS")
              Sample.returnsInstance None Sample.initial constants made
              eq_refl eq_refl)
    as (creator & w'' & Hmk & Hiff).
  destruct (proj2 (Hiff [] created instance created eq_refl)) as (a & w3 & Ha).
  { split; [reflexivity |]. exists (UserFunction 0). reflexivity. }
  exists creator, w'', a, w3. split; assumption.
Defined.

Lemma creator_throws_witness :
  exists creator w'',
    Sample.createAsyncAction (VStr "GET_POSTS") Sample.returnsArray
      (passed None) Sample.initial = (inr creator, w'') /\
    invoke creator [] created =
      (inl (Error "makeRequest must be a function"), created).
Proof.
  destruct (creator_throws Sample.ERRORS Sample.REDUX_EASY_ASYNC_NAMESPACE
              Sample.generator Sample.createAction (VStr "GET_POSTS")
              Sample.returnsArray None Sample.initial constants made
              eq_refl eq_refl)
    as (creator & w'' & Hmk & Htable).
  exists creator, w''. split; [exact Hmk |].
  exact (Htable [] created (VArr [f]) created eq_refl).
Defined.

(** The action built from an instance has none of the instance's
    inherited properties, its [makeRequest] among them. *)
Lemma action_keys_witness :
  exists creator w'' r,
    Sample.createAsyncAction (VStr "GET_POSTS") Sample.returnsInstance
      (passed None) Sample.initial = (inr creator, w'') /\
    invoke creator [VNum 1] created = (inr (VObj r), created) /\
    dom r = dom (spread instance) ∪ {["type"]} ∪ list_to_set assignedKeys /\
    r !! "makeRequest" = None.
Proof.
  destruct (action_keys Sample.ERRORS Sample.REDUX_EASY_ASYNC_NAMESPACE
              Sample.generator Sample.createAction (VStr "GET_POSTS")
              Sample.returnsInstance None Sample.initial constants made
              [VNum 1] created instance f created
              eq_refl eq_refl eq_refl eq_refl eq_refl eq_refl)
    as (creator & w'' & r & Hmk & Hinv & Hdom).
  exists creator, w'', r. repeat split; try assumption.
  apply not_elem_of_dom. rewrite Hdom. unfold assignedKeys. simpl.
  set_unfold. intros [[[] | H] | H]; [discriminate H |].
  destruct H as [H | [H | [H | [H | [H | []]]]]]; discriminate H.
Defined.

Lemma creator_keys_witness :
  exists creator w'',
    Sample.createAsyncAction (VStr "GET_POSTS") Sample.minimal (passed None)
      Sample.initial = (inr creator, w'') /\
    dom (own creator w'') = list_to_set decoratedKeys /\
    own creator w'' !! "actionName" = own creator w'' !! "NAME".
Proof.
  exact (creator_keys Sample.ERRORS Sample.REDUX_EASY_ASYNC_NAMESPACE
           Sample.generator Sample.createAction (VStr "GET_POSTS")
           Sample.minimal None Sample.initial constants made eq_refl eq_refl).
Defined.


Lemma decorateActionCreator_again_witness :
  exists w1,
    decorateActionCreator Sample.createAction Sample.bare constants
      Sample.initial = (inr tt, w1) /\
    decorateActionCreator Sample.createAction Sample.bare others w1 =
    decorateActionCreator Sample.createAction Sample.bare others Sample.initial.
Proof.
  destruct (decorateActionCreator_returns Sample.createAction Sample.bare
              constants Sample.initial)
    as (START & SUCCESS & FAIL & NAME & _ & _ & _ & _ & Hdec);
    [discriminate | discriminate |].
  eexists. split; [exact Hdec |].
  apply (decorateActionCreator_again Sample.createAction Sample.bare
           constants others Sample.initial _ Hdec); discriminate.
Defined.


End AsyncActionMoreExamples.
